(** * Convergence loops of the agent-mastery scripts

    A shallow embedding of the two iterative loops of the repository:

    - [SwarmAgent]: [swarm_agent.py], the researcher / analyst / critic swarm
      with its shared context, its termination policy [should_terminate] and
      the orchestrator [run_swarm];
    - [LangGraphSwarm]: [03_frameworks/langgraph/06_swarm.py], the
      solver / critic cycle routed by [should_continue].

    Python [int] is [Z], Python [float] is the binary64 [float] of the kernel
    (so [0.3 + 0.3 + 0.3] is the very number Python computes), [str] is
    [string], [list] is [list].  The hosted model and the search service are
    external: they are an [Oracle], a function of the number of external calls
    made so far and of the text sent, that answers or raises.  Console output
    ([verbose]) is not modelled. *)

From Stdlib Require Import ZArith List String Ascii Bool Lia Floats DecimalString.
Import ListNotations.

#[local] Set Warnings "-inexact-float".
#[local] Open Scope string_scope.
#[local] Open Scope Z_scope.

#[local] Infix "^^" := String.append (at level 60, right associativity).

(** ** Python values and helpers *)

Module Py.

(** An exception, with the text [str(e)] gives. *)
Inductive exn : Type :=
| Exception (msg : string).

Definition str_of_exn (e : exn) : string :=
  match e with Exception msg => msg end.

Definition nl : string := String (ascii_of_nat 10) EmptyString.

(** ["sep".join(l)] *)
Definition join (sep : string) (l : list string) : string := String.concat sep l.

(** [s[:n]] *)
Definition str_prefix (n : nat) (s : string) : string := substring 0 n s.

(** [l[-n:]] for a positive [n] *)
Definition last_n {A : Type} (n : nat) (l : list A) : list A :=
  skipn (List.length l - n)%nat l.

(** [x in l] *)
Definition mem (x : string) (l : list string) : bool :=
  existsb (String.eqb x) l.

(** [l.remove(x)]: drops the first occurrence (the source only calls it when
    [x in l]). *)
Fixpoint remove_first (x : string) (l : list string) : list string :=
  match l with
  | [] => []
  | y :: l' => if String.eqb x y then l' else y :: remove_first x l'
  end.

(** [max(0, x)]: the builtin keeps its first argument unless a later one is
    strictly greater; the integer [0] it then returns is the float zero. *)
Definition max0 (x : float) : float :=
  if PrimFloat.ltb 0 x then x else 0%float.

(** A decoded JSON value of the shapes the agents' prompts ask for. *)
Inductive json : Type :=
| JNumber (x : float)
| JStrings (l : list string).

(** A decoded JSON object; the first binding of a key is the one [get] sees. *)
Definition dict : Type := list (string * json).

Fixpoint get (d : dict) (key : string) : option json :=
  match d with
  | [] => None
  | (k, v) :: d' => if String.eqb key k then Some v else get d' key
  end.

End Py.

Import Py.

(** ** swarm_agent.py *)

Module SwarmAgent.

(** The dict built by [create_shared_context]. *)
Record Context : Type := mkContext {
  task : string;
  findings : list string;
  open_threads : list string;
  investigated : list string;
  iteration : Z;
  max_iterations : Z;
  confidence : float;
  agents_last_round : list string
}.

Definition create_shared_context (task : string) : Context :=
  {| task := task;
     findings := [];
     open_threads := [task];
     investigated := [];
     iteration := 0;
     max_iterations := 10;
     confidence := 0%float;
     agents_last_round := [] |}.

(** *** In-place updates of the shared context *)

(** [shared_context["findings"].append(f)] *)
Definition add_finding (c : Context) (f : string) : Context :=
  mkContext (task c) (findings c ++ [f]) (open_threads c) (investigated c)
    (iteration c) (max_iterations c) (confidence c) (agents_last_round c).

(** [if t not in investigated and t not in open_threads: open_threads.append(t)] *)
Definition add_thread (c : Context) (t : string) : Context :=
  if negb (mem t (investigated c)) && negb (mem t (open_threads c))
  then mkContext (task c) (findings c) (open_threads c ++ [t]) (investigated c)
         (iteration c) (max_iterations c) (confidence c) (agents_last_round c)
  else c.

(** [shared_context["confidence"] += x] *)
Definition add_confidence (x : float) (c : Context) : Context :=
  mkContext (task c) (findings c) (open_threads c) (investigated c)
    (iteration c) (max_iterations c) (confidence c + x)%float (agents_last_round c).

(** [shared_context["confidence"] = max(0, shared_context["confidence"])] *)
Definition clamp_confidence (c : Context) : Context :=
  mkContext (task c) (findings c) (open_threads c) (investigated c)
    (iteration c) (max_iterations c) (max0 (confidence c)) (agents_last_round c).

(** [if thread in open_threads: open_threads.remove(thread)] followed by
    [investigated.append(thread)] *)
Definition mark_investigated (thread : string) (c : Context) : Context :=
  mkContext (task c) (findings c)
    (if mem thread (open_threads c) then remove_first thread (open_threads c)
     else open_threads c)
    (investigated c ++ [thread])
    (iteration c) (max_iterations c) (confidence c) (agents_last_round c).

(** [ctx["iteration"] += 1] *)
Definition next_iteration (c : Context) : Context :=
  mkContext (task c) (findings c) (open_threads c) (investigated c)
    (iteration c + 1) (max_iterations c) (confidence c) (agents_last_round c).

(** *** The external services *)

Inductive Role : Type := Researcher | Analyst | Critic | Synthesizer.

(** One entry of [search_results['results']]. *)
Record SearchHit : Type := { title : string; content : string }.

(** The services, as seen by one run: what the [n]-th external call of the
    run answers.  [tavily_search n query] stands for [tavily.search] and the
    reading of its result; [chat_json n role user] for
    [client.chat.completions.create] with the system prompt of [role] and the
    user message [user], followed by [json.loads]; [chat_text] for the same
    call whose content is used as it is.  [inl e] is the exception raised. *)
Record Oracle : Type := {
  tavily_search : nat -> string -> exn + list SearchHit;
  chat_json : nat -> Role -> string -> exn + dict;
  chat_text : nat -> Role -> string -> exn + string
}.

(** *** State and exceptions *)

(** The mutable state of a run: the shared context, and how many external
    calls were made. *)
Record Store : Type := { ctx : Context; calls : nat }.

Inductive outcome (A : Type) : Type :=
| Ok (a : A) (s : Store)
| Raised (e : exn) (s : Store).
Arguments Ok {A} a s.
Arguments Raised {A} e s.

Definition M (A : Type) : Type := Store -> outcome A.

Definition ret {A : Type} (a : A) : M A := fun s => Ok a s.

Definition bind {A B : Type} (m : M A) (k : A -> M B) : M B :=
  fun s => match m s with
           | Ok a s' => k a s'
           | Raised e s' => Raised e s'
           end.

Definition raise {A : Type} (e : exn) : M A := fun s => Raised e s.

(** [try: m  except Exception as e: h e] *)
Definition try_except {A : Type} (m : M A) (h : exn -> M A) : M A :=
  fun s => match m s with
           | Ok a s' => Ok a s'
           | Raised e s' => h e s'
           end.

Definition read : M Context := fun s => Ok (ctx s) s.

Definition update (f : Context -> Context) : M unit :=
  fun s => Ok tt {| ctx := f (ctx s); calls := calls s |}.

Definition external {A : Type} (f : nat -> exn + A) : M A :=
  fun s =>
    let s' := {| ctx := ctx s; calls := S (calls s) |} in
    match f (calls s) with
    | inr a => Ok a s'
    | inl e => Raised e s'
    end.

Notation "x <- m ;; k" := (bind m (fun x => k))
  (at level 61, m at next level, right associativity).
Notation "m ;;; k" := (bind m (fun _ => k))
  (at level 61, right associativity).

Definition store_of {A : Type} (r : outcome A) : Store :=
  match r with Ok _ s => s | Raised _ s => s end.

(** [result.get(key, [])], iterated over: a number is not iterable. *)
Definition get_strings (result : dict) (key : string) : M (list string) :=
  match get result key with
  | None => ret []
  | Some (JStrings l) => ret l
  | Some (JNumber _) => raise (Exception "TypeError: object is not iterable")
  end.

(** [result.get(key, default)], added to a float: a list cannot be added. *)
Definition get_number (result : dict) (key : string) (default : float) : M float :=
  match get result key with
  | None => ret default
  | Some (JNumber x) => ret x
  | Some (JStrings _) => raise (Exception "TypeError: unsupported operand type(s) for +=")
  end.

(** What an agent returns: [{"contributed": False}], or
    [{"contributed": True, key: items}]. *)
Inductive AgentResult : Type :=
| NoContribution
| Contribution (key : string) (items : list string).

(** [result.get("contributed")] *)
Definition contributed (r : AgentResult) : bool :=
  match r with NoContribution => false | Contribution _ _ => true end.

Section Agents.

Variable o : Oracle.

(** The [try] block of the researcher: the search and the formatting of its
    results. *)
Definition search_text (thread : string) : M string :=
  try_except
    (hits <- external (fun n => tavily_search o n thread) ;;
     let found := map (fun r => title r ^^ ": " ^^ str_prefix 200 (content r)) hits in
     ret (match found with
          | [] => "No results found."
          | _ => join nl found
          end))
    (fun e => ret ("Search failed: " ^^ str_of_exn e)).

Definition run_researcher_agent : M AgentResult :=
  c <- read ;;
  match open_threads c with
  | [] => ret NoContribution
  | thread :: _ =>
      result_text <- search_text thread ;;
      result <- external (fun n => chat_json o n Researcher
                  ("Task: " ^^ task c ^^ nl ^^ nl ^^
                   "Search results for '" ^^ thread ^^ "':" ^^ nl ^^ result_text)) ;;
      found <- get_strings result "findings" ;;
      update (fun c => fold_left
                (fun c f => add_finding c ("[RESEARCHER] " ^^ f)) found c) ;;;
      new_threads <- get_strings result "new_threads" ;;
      update (fun c => fold_left add_thread new_threads c) ;;;
      boost <- get_number result "confidence_boost" 0.05%float ;;
      update (add_confidence boost) ;;;
      update (mark_investigated thread) ;;;
      found' <- get_strings result "findings" ;;
      ret (Contribution "findings" found')
  end.

Definition run_analyst_agent : M AgentResult :=
  c <- read ;;
  if (List.length (findings c) <? 2)%nat then ret NoContribution
  else
    let findings_text := join nl (last_n 10 (findings c)) in
    result <- external (fun n => chat_json o n Analyst
                ("Task: " ^^ task c ^^ nl ^^ nl ^^
                 "Current findings:" ^^ nl ^^ findings_text)) ;;
    patterns <- get_strings result "patterns" ;;
    update (fun c => fold_left
              (fun c p => add_finding c ("[ANALYST] Pattern: " ^^ p)) patterns c) ;;;
    gaps <- get_strings result "gaps" ;;
    update (fun c => fold_left add_thread gaps c) ;;;
    boost <- get_number result "confidence_boost" 0.05%float ;;
    update (add_confidence boost) ;;;
    patterns' <- get_strings result "patterns" ;;
    ret (Contribution "patterns" patterns').

Definition run_critic_agent : M AgentResult :=
  c <- read ;;
  if (List.length (findings c) <? 3)%nat then ret NoContribution
  else
    let findings_text := join nl (last_n 8 (findings c)) in
    result <- external (fun n => chat_json o n Critic
                ("Task: " ^^ task c ^^ nl ^^ nl ^^
                 "Findings to critique:" ^^ nl ^^ findings_text)) ;;
    challenges <- get_strings result "challenges" ;;
    update (fun c => fold_left
              (fun c x => add_finding c ("[CRITIC] Challenge: " ^^ x)) challenges c) ;;;
    claims <- get_strings result "needs_verification" ;;
    update (fun c => fold_left
              (fun c claim => add_thread c ("Verify: " ^^ claim)) claims c) ;;;
    adjustment <- get_number result "confidence_adjustment" 0%float ;;
    update (add_confidence adjustment) ;;;
    update clamp_confidence ;;;
    challenges' <- get_strings result "challenges" ;;
    ret (Contribution "challenges" challenges').

Definition run_synthesizer_agent : M string :=
  c <- read ;;
  let findings_text := join nl (findings c) in
  external (fun n => chat_text o n Synthesizer
              ("Task: " ^^ task c ^^ nl ^^ nl ^^
               "All findings from the swarm:" ^^ nl ^^ findings_text)).

End Agents.

(** *** Termination conditions *)

(** The second component of what [should_terminate] returns.  The text of
    [ConfidenceThreshold c] is "Confidence threshold reached (c)", with [c]
    printed to two decimals; [NoReason] is the empty string. *)
Inductive Reason : Type :=
| MaxIterations
| ConfidenceThreshold (c : float)
| AllThreads
| NoReason.

Definition is_empty {A : Type} (l : list A) : bool :=
  match l with [] => true | _ => false end.

Definition should_terminate (c : Context) : bool * Reason :=
  if iteration c >=? max_iterations c then (true, MaxIterations)
  else if (0.85 <=? confidence c)%float then (true, ConfidenceThreshold (confidence c))
  else if is_empty (open_threads c) && (3 <? List.length (findings c))%nat
       then (true, AllThreads)
  else (false, NoReason).

(** *** The orchestrator *)

Section Orchestrator.

Variable o : Oracle.

Definition agents : list (string * M AgentResult) :=
  [ ("Researcher", run_researcher_agent o);
    ("Analyst", run_analyst_agent o);
    ("Critic", run_critic_agent o) ].

(** The [for name, agent_fn in agents] loop, counting contributions. *)
Fixpoint run_agents (l : list (string * M AgentResult)) (contributions : nat) : M nat :=
  match l with
  | [] => ret contributions
  | (_, agent_fn) :: l' =>
      result <- agent_fn ;;
      run_agents l' (if contributed result then S contributions else contributions)
  end.

(** The body of the [while True] loop after the termination check. *)
Definition run_round : M nat :=
  contributions <- run_agents agents 0%nat ;;
  (if (contributions =? 0)%nat then update (add_confidence 0.1%float) else ret tt) ;;;
  ret contributions.

(** [ctx["iteration"] += 1] at the top of the loop body. *)
Definition begin_pass (s : Store) : Store :=
  {| ctx := next_iteration (ctx s); calls := calls s |}.

(** The [while True] loop.  [fuel] bounds the number of passes; [None] means
    the bound was too small (the passes a context needs are bounded by its
    [max_iterations], see [passes]). *)
Fixpoint swarm_loop (fuel : nat) (s : Store) : option (outcome Reason) :=
  match fuel with
  | O => None
  | S fuel' =>
      let s1 := begin_pass s in
      let (should_stop, reason) := should_terminate (ctx s1) in
      if should_stop then Some (Ok reason s1)
      else match run_round s1 with
           | Ok _ s2 => swarm_loop fuel' s2
           | Raised e s2 => Some (Raised e s2)
           end
  end.

(** Passes that are always enough for the loop started on [c]. *)
Definition passes (c : Context) : nat :=
  S (Z.to_nat (max_iterations c - iteration c)).

(** A value stored in the dict [run_swarm] returns. *)
Inductive value : Type :=
| VStr (s : string)
| VInt (n : Z)
| VFloat (x : float)
| VList (l : list string).

Definition report (c : Context) (final_answer : string) : list (string * value) :=
  [ ("task", VStr (task c));
    ("iterations", VInt (iteration c));
    ("total_findings", VInt (Z.of_nat (List.length (findings c))));
    ("threads_investigated", VInt (Z.of_nat (List.length (investigated c))));
    ("final_confidence", VFloat (confidence c));
    ("findings", VList (findings c));
    ("answer", VStr final_answer) ].

(** The rest of [run_swarm] once the loop has stopped. *)
Definition synthesize : M (list (string * value)) :=
  final_answer <- run_synthesizer_agent o ;;
  c <- read ;;
  ret (report c final_answer).

(** [run_swarm] from the loop on, started on a given context instead of the
    one [create_shared_context] builds. *)
Definition run_swarm_from (s : Store) : option (outcome (list (string * value))) :=
  match swarm_loop (passes (ctx s)) s with
  | None => None
  | Some (Raised e s') => Some (Raised e s')
  | Some (Ok _ s') => Some (synthesize s')
  end.

Definition run_swarm (task : string) : option (outcome (list (string * value))) :=
  run_swarm_from {| ctx := create_shared_context task; calls := 0 |}.

End Orchestrator.

(** [d.get(key)] on a returned dict, and the keys it has. *)
Fixpoint field (key : string) (d : list (string * value)) : option value :=
  match d with
  | [] => None
  | (k, v) :: d' => if String.eqb key k then Some v else field key d'
  end.

Definition keys (d : list (string * value)) : list string := map fst d.

(** The value a run returned, if it returned. *)
Definition returned {A : Type} (r : option (outcome A)) : option A :=
  match r with
  | Some (Ok a _) => Some a
  | _ => None
  end.

(** The contexts a run can be observed in: as created, after the iteration
    count is advanced, after a call of one of the agents (returned or raised,
    whatever the services answered), after the nudge of a round without
    contribution. *)
Inductive reachable (task : string) : Context -> Prop :=
| reach_created : reachable task (create_shared_context task)
| reach_pass (c : Context) :
    reachable task c -> reachable task (next_iteration c)
| reach_agent (c : Context) (o : Oracle) (name : string) (agent_fn : M AgentResult) (n : nat) :
    reachable task c -> In (name, agent_fn) (agents o) ->
    reachable task (ctx (store_of (agent_fn {| ctx := c; calls := n |})))
| reach_nudge (c : Context) :
    reachable task c -> reachable task (add_confidence 0.1%float c).

(** [a] and [b] have no common element. *)
Definition disjoint (a b : list string) : Prop :=
  forall x, In x a -> In x b -> False.

(** The open threads are pairwise different and none of them is
    investigated. *)
Definition threads_inv (c : Context) : Prop :=
  NoDup (open_threads c) /\ disjoint (investigated c) (open_threads c).

(** [c'] has the iteration count and the bound of [c]. *)
Definition same_bounds (c c' : Context) : Prop :=
  iteration c' = iteration c /\ max_iterations c' = max_iterations c.

(** The confidence [x] after [k] nudges of 0.1. *)
Fixpoint nudged (k : nat) (x : float) : float :=
  match k with
  | O => x
  | S k' => nudged k' (x + 0.1)%float
  end.

(** The context after [k] passes in which no agent contributed. *)
Fixpoint stall_passes (k : nat) (c : Context) : Context :=
  match k with
  | O => c
  | S k' => stall_passes k' (add_confidence 0.1%float (next_iteration c))
  end.

End SwarmAgent.

(** ** 03_frameworks/langgraph/06_swarm.py *)

Module LangGraphSwarm.

(** Text helpers.  The replies are taken to be ASCII text, on which these
    agree with [str.strip], [str.upper] and [str.startswith]. *)
Definition is_space (c : ascii) : bool :=
  let n := nat_of_ascii c in
  ((9 <=? n) && (n <=? 13) || (28 <=? n) && (n <=? 32))%nat.

Fixpoint lstrip (s : string) : string :=
  match s with
  | EmptyString => EmptyString
  | String c s' => if is_space c then lstrip s' else s
  end.

Fixpoint rstrip (s : string) : string :=
  match s with
  | EmptyString => EmptyString
  | String c s' =>
      match rstrip s' with
      | EmptyString => if is_space c then EmptyString else String c EmptyString
      | r => String c r
      end
  end.

Definition strip (s : string) : string := rstrip (lstrip s).

Definition upper_char (c : ascii) : ascii :=
  let n := nat_of_ascii c in
  if ((97 <=? n) && (n <=? 122))%nat then ascii_of_nat (n - 32) else c.

Fixpoint upper (s : string) : string :=
  match s with
  | EmptyString => EmptyString
  | String c s' => String (upper_char c) (upper s')
  end.

Definition startswith (s p : string) : bool := String.prefix p s.

(** [str(n)] for an [int] *)
Definition str_of_int (n : Z) : string :=
  DecimalString.NilZero.string_of_int (Z.to_int n).

Record SwarmState : Type := mkState {
  problem : string;
  solution : string;
  feedback : string;
  iteration : Z;
  is_complete : bool;
  history : list string
}.

Definition MAX_ITERATIONS : Z := 3.

(** The keys a node returns; the graph overwrites them in the state. *)
Inductive Assignment : Type :=
| set_solution (s : string)
| set_feedback (s : string)
| set_iteration (n : Z)
| set_is_complete (b : bool)
| set_history (h : list string).

Definition assign (st : SwarmState) (a : Assignment) : SwarmState :=
  match a with
  | set_solution s =>
      mkState (problem st) s (feedback st) (iteration st) (is_complete st) (history st)
  | set_feedback s =>
      mkState (problem st) (solution st) s (iteration st) (is_complete st) (history st)
  | set_iteration n =>
      mkState (problem st) (solution st) (feedback st) n (is_complete st) (history st)
  | set_is_complete b =>
      mkState (problem st) (solution st) (feedback st) (iteration st) b (history st)
  | set_history h =>
      mkState (problem st) (solution st) (feedback st) (iteration st) (is_complete st) h
  end.

Definition merge (st : SwarmState) (u : list Assignment) : SwarmState :=
  fold_left assign u st.

Inductive Node : Type := solver | critic.

(** [llm.invoke] as one run sees it: the content answered to the [n]-th
    call, made by the given node with the given human message, or the
    exception raised. *)
Definition Llm : Type := nat -> Node -> string -> exn + string.

Definition solver_agent (llm : Llm) (n : nat) (state : SwarmState) : exn + list Assignment :=
  let iteration := iteration state in
  let prompt :=
    if iteration =? 0 then
      "Problem: " ^^ problem state ^^ nl ^^ "        " ^^ nl ^^
      "Propose an initial solution. Be specific and actionable."
    else
      "Problem: " ^^ problem state ^^ nl ^^ nl ^^
      "Current solution:" ^^ nl ^^ solution state ^^ nl ^^ nl ^^
      "Feedback received:" ^^ nl ^^ feedback state ^^ nl ^^ nl ^^
      "Improve the solution based on this feedback. Address the specific concerns raised."
  in
  match llm n solver prompt with
  | inl e => inl e
  | inr new_solution =>
      inr [ set_solution new_solution;
            set_iteration (iteration + 1);
            set_history (history state ++
              ["ITERATION " ^^ str_of_int (iteration + 1) ^^ " SOLUTION:" ^^ nl ^^ new_solution]) ]
  end.

Definition critic_agent (llm : Llm) (n : nat) (state : SwarmState) : exn + list Assignment :=
  let prompt :=
    nl ^^ "Problem: " ^^ problem state ^^ nl ^^ nl ^^
    "Proposed solution:" ^^ nl ^^ solution state ^^ nl ^^ nl ^^
    "This is iteration " ^^ str_of_int (iteration state) ^^ " of " ^^
    str_of_int MAX_ITERATIONS ^^ "." ^^ nl ^^
    (if iteration state >=? MAX_ITERATIONS
     then "This is the last iteration, so be more lenient." else EmptyString) ^^ nl ^^ nl ^^
    "Evaluate:"
  in
  match llm n critic prompt with
  | inl e => inl e
  | inr feedback =>
      let is_complete := startswith (upper (strip feedback)) "APPROVED" in
      inr [ set_feedback feedback;
            set_is_complete is_complete;
            set_history (history state ++
              ["ITERATION " ^^ str_of_int (iteration state) ^^ " FEEDBACK:" ^^ nl ^^ feedback]) ]
  end.

(** The two labels [should_continue] returns, "solver" and "end". *)
Inductive Route : Type := to_solver | to_end.

Definition should_continue (state : SwarmState) : Route :=
  if is_complete state then to_end
  else if iteration state >=? MAX_ITERATIONS then to_end
  else to_solver.

(** One turn of the cycle built by [build_swarm_graph]: the edge from the
    solver to the critic.  [n] is the number of calls made before. *)
Definition cycle (llm : Llm) (n : nat) (state : SwarmState) : exn + SwarmState :=
  match solver_agent llm n state with
  | inl e => inl e
  | inr u =>
      let state1 := merge state u in
      match critic_agent llm (S n) state1 with
      | inl e => inl e
      | inr u' => inr (merge state1 u')
      end
  end.

(** The compiled graph: START, the solver, the critic, then the conditional
    edge of [should_continue] back to the solver or to END.  [fuel] bounds the
    number of turns; [None] means the bound was too small. *)
Fixpoint invoke (llm : Llm) (fuel : nat) (n : nat) (state : SwarmState)
  : option (exn + SwarmState) :=
  match fuel with
  | O => None
  | S fuel' =>
      match cycle llm n state with
      | inl e => Some (inl e)
      | inr state' =>
          match should_continue state' with
          | to_end => Some (inr state')
          | to_solver => invoke llm fuel' (S (S n)) state'
          end
      end
  end.

(** The state after [k] turns of the cycle, the routing left aside. *)
Fixpoint after_turns (llm : Llm) (k : nat) (n : nat) (state : SwarmState)
  : exn + SwarmState :=
  match k with
  | O => inr state
  | S k' =>
      match cycle llm n state with
      | inl e => inl e
      | inr state' => after_turns llm k' (S (S n)) state'
      end
  end.

(** The state [main] starts the graph on. *)
Definition initial_state (problem : string) : SwarmState :=
  {| problem := problem;
     solution := EmptyString;
     feedback := EmptyString;
     iteration := 0;
     is_complete := false;
     history := [] |}.

(** The condition under which the cycle is left. *)
Definition stops (state : SwarmState) : Prop :=
  is_complete state = true \/ MAX_ITERATIONS <= iteration state.

(** The model answers every call. *)
Definition answers (llm : Llm) : Prop :=
  forall n node prompt, exists content, llm n node prompt = inr content.

End LangGraphSwarm.

(** ** Inputs of the scenarios *)

Module Scenarios.

Import SwarmAgent.

(** A context like [c] with another bound on the iterations. *)
Definition with_max (m : Z) (c : Context) : Context :=
  mkContext (task c) (findings c) (open_threads c) (investigated c)
    (iteration c) m (confidence c) (agents_last_round c).

(** Services that answer, with nothing: no search result, an empty JSON
    object, an empty text. *)
Definition quiet : Oracle :=
  {| tavily_search := fun _ _ => inr [];
     chat_json := fun _ _ _ => inr [];
     chat_text := fun _ _ _ => inr EmptyString |}.

(** A context handed over with its confidence already above the threshold. *)
Definition preconverged : Context :=
  mkContext "topic" [] ["topic"] [] 0 10 0.9%float [].

(** Scenario A: the model always answers the researcher with no finding, the
    same three threads and a confidence boost of 0.3, so that the researcher
    is the only agent that contributes. *)
Definition steady : Oracle :=
  {| tavily_search := fun _ _ => inr [];
     chat_json := fun _ _ _ =>
       inr [ ("findings", JStrings []);
             ("new_threads", JStrings ["a"; "b"; "c"]);
             ("confidence_boost", JNumber 0.3%float) ];
     chat_text := fun _ _ _ => inr "answer" |}.

(** Scenario D: the model raises on its first call, the one the researcher
    makes in round 1 (external call 1, after the search), and answers
    afterwards. *)
Definition fails_once : Oracle :=
  {| tavily_search := fun _ _ => inr [];
     chat_json := fun n _ _ =>
       if (n =? 1)%nat then inl (Exception "APIConnectionError") else inr [];
     chat_text := fun _ _ _ => inr EmptyString |}.

(** The search is down; the model answers with one finding. *)
Definition search_down : Oracle :=
  {| tavily_search := fun _ _ => inl (Exception "timeout");
     chat_json := fun _ _ _ => inr [("findings", JStrings ["f"])];
     chat_text := fun _ _ _ => inr EmptyString |}.

(** The model answers the researcher with a negative confidence boost. *)
Definition pessimist : Oracle :=
  {| tavily_search := fun _ _ => inr [];
     chat_json := fun _ _ _ => inr [("confidence_boost", JNumber (-5)%float)];
     chat_text := fun _ _ _ => inr EmptyString |}.

(** Scenario C: a context on which no agent has anything to do (no open
    thread, too few findings), with a bound [m] on the iterations. *)
Definition stalled (m : Z) : Context :=
  mkContext "topic" [] [] [] 0 m 0%float [].

(** Scenario B: the critic asks for more work on the first turn and approves
    on the second. *)
Definition approves_second : LangGraphSwarm.Llm :=
  fun n node _ =>
    match node with
    | LangGraphSwarm.solver => inr "a solution"
    | LangGraphSwarm.critic =>
        if (n =? 1)%nat then inr "NEEDS WORK: be specific"
        else inr "  approved: good enough"
    end.

End Scenarios.

(** ** How the context of swarm_agent.py changes *)

Module SwarmAgentUpdates.

Import SwarmAgent.

(** The prefixes the three agents put before what they append to
    [findings]. *)
Definition tags : list string :=
  [ "[RESEARCHER] "; "[ANALYST] Pattern: "; "[CRITIC] Challenge: " ].

Definition tagged (f : string) : Prop :=
  exists tag body, In tag tags /\ f = tag ^^ body.

(** The writes the agents and the orchestrator make to the shared context:
    a tagged finding appended, a thread offered to [open_threads], a number
    added to the confidence, the confidence clamped, an open thread moved to
    [investigated]. *)
Inductive elementary : Context -> Context -> Prop :=
| el_finding (c : Context) (f : string) :
    tagged f -> elementary c (add_finding c f)
| el_thread (c : Context) (t : string) :
    elementary c (add_thread c t)
| el_confidence (c : Context) (x : float) :
    elementary c (add_confidence x c)
| el_clamp (c : Context) :
    elementary c (clamp_confidence c)
| el_investigated (c : Context) (t : string) :
    In t (open_threads c) -> elementary c (mark_investigated t c).

(** Any number of such writes, and of increments of [iteration]. *)
Inductive evolves : Context -> Context -> Prop :=
| evolves_refl (c : Context) : evolves c c
| evolves_write (c1 c2 c3 : Context) :
    evolves c1 c2 -> elementary c2 c3 -> evolves c1 c3
| evolves_pass (c1 c2 : Context) :
    evolves c1 c2 -> evolves c1 (next_iteration c2).

(** The findings of [c] are those of [c0] followed by texts that carry the
    prefix [tag]. *)
Definition tagged_by (tag : string) (c0 c : Context) : Prop :=
  exists l, findings c = (findings c0 ++ map (String.append tag) l)%list.

(** Any number of such writes alone. *)
Inductive updates : Context -> Context -> Prop :=
| updates_refl (c : Context) : updates c c
| updates_write (c1 c2 c3 : Context) :
    updates c1 c2 -> elementary c2 c3 -> updates c1 c3.

End SwarmAgentUpdates.

(** ** Runs used as instances *)

Module Runs.

Import SwarmAgent.

(** The store [run_swarm] starts the loop on. *)
Definition fresh (task : string) : Store :=
  {| ctx := create_shared_context task; calls := 0 |}.

(** How the loop ends on "topic" when the search is down and the model
    answers every call with the one finding "f": the researcher contributes
    in round 1, eight rounds without contribution follow, the tenth pass
    stops on the bound. *)
Definition search_down_end : outcome Reason :=
  Ok MaxIterations
     {| ctx := mkContext "topic" ["[RESEARCHER] f"] [] ["topic"] 10 10
                 (nudged 8 (0 + 0.05)%float) [];
        calls := 2 |}.

(** What [run_swarm] then returns. *)
Definition search_down_report : list (string * value) :=
  report (ctx (store_of search_down_end)) EmptyString.

(** A context on which the analyst and the critic have something to do. *)
Definition three_findings : Store :=
  {| ctx := mkContext "topic" ["a"; "b"; "c"] [] [] 1 10 (-0.5)%float [];
     calls := 0 |}.

End Runs.

(** ** Texts and runs of 06_swarm.py used in statements *)

Module LangGraphRuns.

Import LangGraphSwarm.

(** [s] is made of whitespace only. *)
Fixpoint blank (s : string) : bool :=
  match s with
  | EmptyString => true
  | String c s' => is_space c && blank s'
  end.

(** [s] holds no whitespace. *)
Fixpoint solid (s : string) : bool :=
  match s with
  | EmptyString => true
  | String c s' => negb (is_space c) && solid s'
  end.

(** [s] is ASCII text: every byte is below 128. *)
Fixpoint ascii_text (s : string) : bool :=
  match s with
  | EmptyString => true
  | String c s' => (nat_of_ascii c <? 128)%nat && ascii_text s'
  end.

(** A model that refuses every call. *)
Definition refuses : Llm :=
  fun _ _ _ => inl (Exception "RateLimitError").

(** The state the graph returns on the problem "p" when the critic approves
    in the second turn ([Scenarios.approves_second]). *)
Definition approved_second_turn : SwarmState :=
  {| problem := "p";
     solution := "a solution";
     feedback := "  approved: good enough";
     iteration := 2;
     is_complete := true;
     history :=
       [ "ITERATION 1 SOLUTION:" ^^ nl ^^ "a solution";
         "ITERATION 1 FEEDBACK:" ^^ nl ^^ "NEEDS WORK: be specific";
         "ITERATION 2 SOLUTION:" ^^ nl ^^ "a solution";
         "ITERATION 2 FEEDBACK:" ^^ nl ^^ "  approved: good enough" ] |}.

End LangGraphRuns.

(** ** The command loop of swarm_agent.py *)

Module SwarmAgentMain.

Import SwarmAgent.

Definition lower_char (c : ascii) : ascii :=
  let n := nat_of_ascii c in
  if ((65 <=? n) && (n <=? 90))%nat then ascii_of_nat (n + 32) else c.

(** [str.lower], on ASCII text. *)
Fixpoint lower (s : string) : string :=
  match s with
  | EmptyString => EmptyString
  | String c s' => String (lower_char c) (lower s')
  end.

(** The words that end the session. *)
Definition quit_words : list string := ["quit"; "exit"; "q"].

(** How the script ends: the user asked to leave; [input] found no more line
    and raised; an exception left [run_swarm]. *)
Inductive Ending : Type :=
| Goodbye
| EndOfInput
| Crashed (e : exn).

(** The [while True] loop under [if __name__ == "__main__"], on the lines
    [input] will return.  [services k] are the external services as the
    [k]-th run of [run_swarm] sees them.  The result lists the tasks handed
    to [run_swarm] with what it returned, and how the script ended; it is
    [None] only if a run of [run_swarm] did not end. *)
Fixpoint main (services : nat -> Oracle) (k : nat) (lines : list string)
  : option (list (string * list (string * value)) * Ending) :=
  match lines with
  | [] => Some ([], EndOfInput)
  | line :: rest =>
      let user_input := LangGraphSwarm.strip line in
      if mem (lower user_input) quit_words then Some ([], Goodbye)
      else if String.eqb user_input EmptyString then main services k rest
      else
        match run_swarm (services k) user_input with
        | None => None
        | Some (Raised e _) => Some ([], Crashed e)
        | Some (Ok result _) =>
            match main services (S k) rest with
            | None => None
            | Some (runs, ending) => Some ((user_input, result) :: runs, ending)
            end
        end
  end.

End SwarmAgentMain.

(** * Properties of swarm_agent.py *)

Module SwarmAgentTheory.

Import SwarmAgent.

(** ** What the agents leave alone

    A relation between the context before and after a computation that is a
    preorder and that every elementary update satisfies, is satisfied by the
    agents and by a whole round, whatever the services answer and whether the
    computation returns or raises. *)

Section Frame.

Variable R : Context -> Context -> Prop.
Hypothesis R_refl : forall c, R c c.
Hypothesis R_trans : forall a b c, R a b -> R b c -> R a c.

Definition respects {A : Type} (m : M A) : Prop :=
  forall s, R (ctx s) (ctx (store_of (m s))).

Lemma respects_ret {A : Type} (a : A) : respects (ret a).
Proof. intros s. apply R_refl. Qed.

Lemma respects_raise {A : Type} (e : exn) : respects (@raise A e).
Proof. intros s. apply R_refl. Qed.

Lemma respects_read : respects read.
Proof. intros s. apply R_refl. Qed.

Lemma respects_external {A : Type} (f : nat -> exn + A) : respects (external f).
Proof. intros s. unfold external. destruct (f (calls s)); apply R_refl. Qed.

Lemma respects_update (f : Context -> Context) :
  (forall c, R c (f c)) -> respects (update f).
Proof. intros Hf s. apply Hf. Qed.

Lemma respects_bind {A B : Type} (m : M A) (k : A -> M B) :
  respects m -> (forall a, respects (k a)) -> respects (bind m k).
Proof.
  intros Hm Hk s. unfold bind. specialize (Hm s).
  destruct (m s) as [a s'|e s']; simpl in Hm.
  - eapply R_trans; [exact Hm | apply Hk].
  - exact Hm.
Qed.

Lemma respects_try_except {A : Type} (m : M A) (h : exn -> M A) :
  respects m -> (forall e, respects (h e)) -> respects (try_except m h).
Proof.
  intros Hm Hh s. unfold try_except. specialize (Hm s).
  destruct (m s) as [a s'|e s']; simpl in Hm.
  - exact Hm.
  - eapply R_trans; [exact Hm | apply Hh].
Qed.

Lemma respects_get_strings (d : dict) (key : string) : respects (get_strings d key).
Proof.
  unfold get_strings. destruct (get d key) as [[x|l]|];
    auto using respects_ret, respects_raise.
Qed.

Lemma respects_get_number (d : dict) (key : string) (x : float) :
  respects (get_number d key x).
Proof.
  unfold get_number. destruct (get d key) as [[y|l]|];
    auto using respects_ret, respects_raise.
Qed.

Lemma fold_left_related {X : Type} (f : Context -> X -> Context) :
  (forall c x, R c (f c x)) -> forall l c, R c (fold_left f l c).
Proof.
  intros Hf l. induction l as [|x l IH]; intros c; simpl.
  - apply R_refl.
  - eapply R_trans; [apply Hf | apply IH].
Qed.

Hypothesis R_add_finding : forall c f, R c (add_finding c f).
Hypothesis R_add_thread : forall c t, R c (add_thread c t).
Hypothesis R_add_confidence : forall x c, R c (add_confidence x c).
Hypothesis R_clamp_confidence : forall c, R c (clamp_confidence c).
Hypothesis R_mark_investigated : forall t c, R c (mark_investigated t c).

Ltac frame :=
  repeat first
    [ apply respects_ret | apply respects_raise | apply respects_read
    | apply respects_external | apply respects_get_strings
    | apply respects_get_number
    | apply respects_update;
      first [ solve [auto] | intro; apply fold_left_related; solve [auto] ]
    | apply respects_bind; [ | intro ]
    | apply respects_try_except; [ | intro ] ].

Variable o : Oracle.

Lemma respects_researcher : respects (run_researcher_agent o).
Proof.
  unfold run_researcher_agent. apply respects_bind; [frame|]. intros c.
  destruct (open_threads c) as [|thread rest]; unfold search_text; frame.
Qed.

Lemma respects_analyst : respects (run_analyst_agent o).
Proof.
  unfold run_analyst_agent. apply respects_bind; [frame|]. intros c.
  destruct (List.length (findings c) <? 2)%nat; frame.
Qed.

Lemma respects_critic : respects (run_critic_agent o).
Proof.
  unfold run_critic_agent. apply respects_bind; [frame|]. intros c.
  destruct (List.length (findings c) <? 3)%nat; frame.
Qed.

Lemma respects_agent (name : string) (agent_fn : M AgentResult) :
  In (name, agent_fn) (agents o) -> respects agent_fn.
Proof.
  unfold agents. simpl.
  intros [H|[H|[H|[]]]]; inversion H; subst;
    auto using respects_researcher, respects_analyst, respects_critic.
Qed.

Lemma respects_run_agents (l : list (string * M AgentResult)) :
  (forall name fn, In (name, fn) l -> respects fn) ->
  forall n, respects (run_agents l n).
Proof.
  induction l as [|[name fn] l IH]; intros Hl n; simpl.
  - apply respects_ret.
  - apply respects_bind.
    + apply (Hl name). now left.
    + intros r. apply IH. intros name' fn' Hin. apply (Hl name'). now right.
Qed.

Lemma respects_run_round : respects (run_round o).
Proof.
  unfold run_round. apply respects_bind.
  - apply respects_run_agents. apply respects_agent.
  - intros n. destruct (n =? 0)%nat; frame.
Qed.

End Frame.

(** ** The termination policy *)

(** C1. [should_terminate] is a priority list whose first true condition
    wins: [iteration >= max_iterations] stops with "Max iterations reached"
    whatever else holds; otherwise [confidence >= 0.85] stops with
    "Confidence threshold reached"; otherwise no open thread together with
    more than 3 findings stops with "All threads investigated"; otherwise the
    loop continues. *)
Theorem should_terminate_priority (c : Context) :
  (max_iterations c <= iteration c ->
     should_terminate c = (true, MaxIterations)) /\
  (iteration c < max_iterations c ->
     (0.85 <=? confidence c)%float = true ->
     should_terminate c = (true, ConfidenceThreshold (confidence c))) /\
  (iteration c < max_iterations c ->
     (0.85 <=? confidence c)%float = false ->
     open_threads c = [] -> (3 < List.length (findings c))%nat ->
     should_terminate c = (true, AllThreads)) /\
  (iteration c < max_iterations c ->
     (0.85 <=? confidence c)%float = false ->
     open_threads c <> [] \/ (List.length (findings c) <= 3)%nat ->
     should_terminate c = (false, NoReason)).
Proof.
  unfold should_terminate.
  destruct (Z.geb_spec (iteration c) (max_iterations c)) as [Hge|Hlt].
  - repeat split; intros; solve [reflexivity | lia].
  - split; [lia|].
    destruct (0.85 <=? confidence c)%float.
    + repeat split; intros; solve [reflexivity | discriminate].
    + split; [discriminate|].
      split.
      * intros _ _ Hopen Hlen. rewrite Hopen. simpl.
        destruct (Nat.ltb_spec 3 (List.length (findings c))); [reflexivity | lia].
      * intros _ _ [Hopen|Hlen].
        -- destruct (open_threads c); [contradiction | reflexivity].
        -- destruct (Nat.ltb_spec 3 (List.length (findings c))); [lia|].
           now rewrite andb_false_r.
Qed.

Lemma should_terminate_continue (c : Context) (r : Reason) :
  should_terminate c = (false, r) -> iteration c < max_iterations c.
Proof.
  unfold should_terminate.
  destruct (Z.geb_spec (iteration c) (max_iterations c)); [discriminate | auto].
Qed.

(** ** One pass of the loop *)

Lemma swarm_loop_stop (o : Oracle) (fuel : nat) (s : Store) (r : Reason) :
  should_terminate (next_iteration (ctx s)) = (true, r) ->
  swarm_loop o (S fuel) s = Some (Ok r (begin_pass s)).
Proof. intros H. simpl. now rewrite H. Qed.

Lemma swarm_loop_continue (o : Oracle) (fuel : nat) (s s2 : Store) (r : Reason) (n : nat) :
  should_terminate (next_iteration (ctx s)) = (false, r) ->
  run_round o (begin_pass s) = Ok n s2 ->
  swarm_loop o (S fuel) s = swarm_loop o fuel s2.
Proof. intros H Hr. simpl. now rewrite H, Hr. Qed.

Lemma swarm_loop_raised (o : Oracle) (fuel : nat) (s s2 : Store) (r : Reason) (e : exn) :
  should_terminate (next_iteration (ctx s)) = (false, r) ->
  run_round o (begin_pass s) = Raised e s2 ->
  swarm_loop o (S fuel) s = Some (Raised e s2).
Proof. intros H Hr. simpl. now rewrite H, Hr. Qed.

(** ** Termination *)

(** No agent, and no round, touches [iteration] or [max_iterations]. *)
Lemma run_round_same_bounds (o : Oracle) (s : Store) :
  same_bounds (ctx s) (ctx (store_of (run_round o s))).
Proof.
  apply respects_run_round; unfold same_bounds.
  - auto.
  - intros a b c [H1 H2] [H3 H4]. split; congruence.
  - auto.
  - intros c t. unfold add_thread.
    destruct (negb _ && negb _); auto.
  - auto.
  - auto.
  - auto.
Qed.

Lemma swarm_loop_bounded (o : Oracle) :
  forall (fuel : nat) (s : Store),
    (1 <= fuel)%nat ->
    max_iterations (ctx s) - iteration (ctx s) <= Z.of_nat fuel ->
    exists out,
      swarm_loop o fuel s = Some out /\
      forall r s', out = Ok r s' ->
        max_iterations (ctx s') = max_iterations (ctx s) /\
        iteration (ctx s) < iteration (ctx s') /\
        iteration (ctx s') <= Z.max (iteration (ctx s) + 1) (max_iterations (ctx s)).
Proof.
  induction fuel as [|fuel IH]; intros s Hpos Hfuel; [lia|].
  destruct (should_terminate (next_iteration (ctx s))) as [[|] r] eqn:Hst.
  - exists (Ok r (begin_pass s)). split; [now apply swarm_loop_stop|].
    intros r' s' [= _ <-]. simpl. lia.
  - apply should_terminate_continue in Hst as Hlt. simpl in Hlt.
    pose proof (run_round_same_bounds o (begin_pass s)) as [Hi Hm].
    destruct (run_round o (begin_pass s)) as [n s2|e s2] eqn:Hr; simpl in Hi, Hm.
    + rewrite (swarm_loop_continue o fuel s s2 r n Hst Hr).
      destruct (IH s2) as (out & Hout & Hb); [lia | lia |].
      exists out. split; [exact Hout|].
      intros r' s' E. destruct (Hb r' s' E) as (B1 & B2 & B3). lia.
    + exists (Raised e s2). split; [now apply (swarm_loop_raised o fuel s s2 r e)|].
      discriminate.
Qed.

(** C2. For a positive [max_iterations] and whatever the services answer,
    the loop started on a context at iteration 0 ends within
    [max_iterations] passes (it returns, or an exception of an agent leaves
    it), and when it returns the iteration count it reports is at most
    [max_iterations]. *)
Theorem swarm_loop_total (o : Oracle) (s : Store) (fuel : nat) :
  0 < max_iterations (ctx s) ->
  iteration (ctx s) = 0 ->
  (Z.to_nat (max_iterations (ctx s)) <= fuel)%nat ->
  exists out,
    swarm_loop o fuel s = Some out /\
    forall r s', out = Ok r s' ->
      1 <= iteration (ctx s') <= max_iterations (ctx s).
Proof.
  intros Hmax Hit Hfuel.
  destruct (swarm_loop_bounded o fuel s) as (out & Hout & Hb); [lia | lia |].
  exists out. split; [exact Hout|].
  intros r s' E. destruct (Hb r s' E) as (B1 & B2 & B3). lia.
Qed.

Lemma swarm_loop_total_witness :
  exists out,
    swarm_loop Scenarios.steady 10
      {| ctx := create_shared_context "topic"; calls := 0 |} = Some out /\
    forall r s', out = Ok r s' ->
      1 <= iteration (ctx s')
        <= max_iterations (ctx {| ctx := create_shared_context "topic"; calls := 0 |}).
Proof.
  apply (swarm_loop_total Scenarios.steady
           {| ctx := create_shared_context "topic"; calls := 0 |} 10);
    simpl; solve [reflexivity | lia].
Defined.

Lemma synthesize_outcome (o : Oracle) (s : Store) :
  (exists a, synthesize o s
             = Ok (report (ctx s) a) {| ctx := ctx s; calls := S (calls s) |}) \/
  (exists e, synthesize o s = Raised e {| ctx := ctx s; calls := S (calls s) |}).
Proof.
  unfold synthesize, run_synthesizer_agent, bind, read, external, ret.
  cbv beta iota zeta.
  destruct (chat_text o _ _ _) as [e|a]; [right | left]; eauto.
Qed.

(** Every run of [run_swarm] ends, and reports between 1 and 10 iterations
    when it returns. *)
Corollary run_swarm_total (o : Oracle) (task : string) :
  exists out,
    run_swarm o task = Some out /\
    forall rep s', out = Ok rep s' ->
      exists k, field "iterations" rep = Some (VInt k) /\ 1 <= k <= 10.
Proof.
  unfold run_swarm, run_swarm_from.
  set (s0 := {| ctx := create_shared_context task; calls := 0 |}).
  destruct (swarm_loop_bounded o (passes (ctx s0)) s0) as (out & Hout & Hb);
    [apply Nat.lt_0_succ | simpl; lia |].
  rewrite Hout. destruct out as [r s1|e s1].
  - eexists. split; [reflexivity|].
    intros rep s' E. destruct (Hb r s1 eq_refl) as (B1 & B2 & B3).
    simpl in B1, B2, B3.
    destruct (synthesize_outcome o s1) as [[a Ha]|[e He]]; rewrite E in *.
    + injection Ha as -> _. simpl. exists (iteration (ctx s1)). split; [reflexivity | lia].
    + discriminate.
  - eexists. split; [reflexivity | discriminate].
Qed.

(** ** The check comes before the agents, after the increment *)

Lemma should_terminate_next (c : Context) (r : Reason) :
  should_terminate c = (true, r) ->
  exists r', should_terminate (next_iteration c) = (true, r').
Proof.
  unfold should_terminate. simpl.
  destruct (Z.geb_spec (iteration c + 1) (max_iterations c)); [eauto|].
  destruct (Z.geb_spec (iteration c) (max_iterations c)); [lia|].
  destruct (0.85 <=? confidence c)%float; [eauto|].
  destruct (is_empty (open_threads c) && (3 <? List.length (findings c))%nat);
    [eauto | discriminate].
Qed.

(** C3, as the code has it.  Each pass first advances [iteration], then
    evaluates [should_terminate], before any agent runs.  On a context that
    already satisfies a stop condition the loop halts in its first pass: no
    agent runs and no external call is made, the findings are those of the
    initial context, and the iteration count is the initial one plus 1 (so 1,
    not 0, for a context at iteration 0). *)
Theorem preconverged_halts (o : Oracle) (fuel : nat) (s : Store) (r : Reason) :
  should_terminate (ctx s) = (true, r) ->
  exists r' s',
    swarm_loop o (S fuel) s = Some (Ok r' s') /\
    should_terminate (ctx s') = (true, r') /\
    calls s' = calls s /\
    findings (ctx s') = findings (ctx s) /\
    iteration (ctx s') = iteration (ctx s) + 1.
Proof.
  intros H. destruct (should_terminate_next _ _ H) as [r' Hr'].
  exists r', (begin_pass s). split; [now apply swarm_loop_stop|].
  repeat split. exact Hr'.
Qed.

Lemma preconverged_halts_witness :
  exists r' s',
    swarm_loop Scenarios.quiet 1 {| ctx := Scenarios.preconverged; calls := 0 |}
      = Some (Ok r' s') /\
    should_terminate (ctx s') = (true, r') /\
    calls s' = calls {| ctx := Scenarios.preconverged; calls := 0 |} /\
    findings (ctx s') = findings Scenarios.preconverged /\
    iteration (ctx s') = iteration Scenarios.preconverged + 1.
Proof.
  apply (preconverged_halts Scenarios.quiet 0
           {| ctx := Scenarios.preconverged; calls := 0 |}
           (ConfidenceThreshold 0.9%float)).
  reflexivity.
Defined.

(** C3 as stated fails: a context supplied with confidence 0.9 satisfies the
    stop condition, and the run started on it reports 1 iteration, not 0. *)
Lemma preconverged_reports_one_iteration :
  should_terminate Scenarios.preconverged = (true, ConfidenceThreshold 0.9%float) /\
  option_map (field "iterations")
    (returned (run_swarm_from Scenarios.quiet
                 {| ctx := Scenarios.preconverged; calls := 0 |}))
  = Some (Some (VInt 1)) /\
  VInt 1 <> VInt 0.
Proof. repeat split. discriminate. Qed.

(** ** Scenario A: one agent adding 0.3 a round *)

Lemma should_terminate_false (c : Context) :
  iteration c < max_iterations c ->
  (0.85 <=? confidence c)%float = false ->
  is_empty (open_threads c) && (3 <? List.length (findings c))%nat = false ->
  should_terminate c = (false, NoReason).
Proof.
  intros Hlt Hconf Hthreads. unfold should_terminate.
  destruct (Z.geb_spec (iteration c) (max_iterations c)); [lia|].
  now rewrite Hconf, Hthreads.
Qed.

Lemma should_terminate_max (c : Context) :
  max_iterations c <= iteration c -> should_terminate c = (true, MaxIterations).
Proof.
  intros Hge. unfold should_terminate.
  destruct (Z.geb_spec (iteration c) (max_iterations c)); [reflexivity | lia].
Qed.

Lemma should_terminate_confident (c : Context) :
  iteration c < max_iterations c ->
  (0.85 <=? confidence c)%float = true ->
  should_terminate c = (true, ConfidenceThreshold (confidence c)).
Proof.
  intros Hlt Hconf. unfold should_terminate.
  destruct (Z.geb_spec (iteration c) (max_iterations c)); [lia|].
  now rewrite Hconf.
Qed.

(** Runs one pass of the loop on a store whose round can be computed. *)
Ltac run_pass :=
  erewrite swarm_loop_continue;
  [ | apply should_terminate_false; [simpl; lia | reflexivity | reflexivity]
    | lazy; reflexivity ].

(** C4, as the code has it.  With a bound of at least 5 on the iterations
    (the source fixes 10), the threshold 0.85, and the researcher the only
    agent that contributes, adding 0.3 each round, three rounds run and the
    check of the fourth pass stops the loop with the reason "Confidence
    threshold reached": the sum 0.3 + 0.3 + 0.3 is at least 0.85, and the
    iteration count 4 is below the bound. *)
Theorem steady_researcher_converges (m : Z) (fuel : nat) :
  5 <= m ->
  (4 <= fuel)%nat ->
  swarm_loop Scenarios.steady fuel
    {| ctx := Scenarios.with_max m (create_shared_context "topic"); calls := 0 |}
  = Some (Ok (ConfidenceThreshold (0 + 0.3 + 0.3 + 0.3)%float)
            {| ctx := mkContext "topic" [] ["c"] ["topic"; "a"; "b"] 4 m
                        (0 + 0.3 + 0.3 + 0.3)%float [];
               calls := 6 |}).
Proof.
  intros Hm Hfuel.
  destruct fuel as [|[|[|[|fuel]]]]; try lia.
  do 3 run_pass.
  erewrite swarm_loop_stop; [reflexivity|].
  apply should_terminate_confident; [simpl; lia | reflexivity].
Qed.

Lemma steady_researcher_converges_witness :
  swarm_loop Scenarios.steady 10
    {| ctx := Scenarios.with_max 10 (create_shared_context "topic"); calls := 0 |}
  = Some (Ok (ConfidenceThreshold (0 + 0.3 + 0.3 + 0.3)%float)
            {| ctx := mkContext "topic" [] ["c"] ["topic"; "a"; "b"] 4 10
                        (0 + 0.3 + 0.3 + 0.3)%float [];
               calls := 6 |}).
Proof. apply (steady_researcher_converges 10 10); lia. Defined.

(** C4 as stated fails: with a bound of 3 the third pass stops on the bound,
    after two rounds, the confidence being 0.3 + 0.3. *)
Lemma steady_researcher_max_3 :
  swarm_loop Scenarios.steady 3
    {| ctx := Scenarios.with_max 3 (create_shared_context "topic"); calls := 0 |}
  = Some (Ok MaxIterations
            {| ctx := mkContext "topic" [] ["b"; "c"] ["topic"; "a"] 3 3
                        (0 + 0.3 + 0.3)%float [];
               calls := 4 |}) /\
  (0.85 <=? 0 + 0.3 + 0.3)%float = false.
Proof. split; reflexivity. Qed.

(** ** Failures of the external services *)

Lemma bind_ok {A B : Type} (m : M A) (k : A -> M B) (s s' : Store) (a : A) :
  m s = Ok a s' -> bind m k s = k a s'.
Proof. intros H. unfold bind. now rewrite H. Qed.

Lemma bind_raised {A B : Type} (m : M A) (k : A -> M B) (s s' : Store) (e : exn) :
  m s = Raised e s' -> bind m k s = Raised e s'.
Proof. intros H. unfold bind. now rewrite H. Qed.

Lemma bind_inv {A B : Type} (m : M A) (k : A -> M B) (s s' : Store) (b : B) :
  bind m k s = Ok b s' -> exists a s1, m s = Ok a s1 /\ k a s1 = Ok b s'.
Proof.
  unfold bind. destruct (m s) as [a s1|e s1]; [eauto | discriminate].
Qed.

Lemma get_strings_store (d : dict) (key : string) (s s' : Store) (l : list string) :
  get_strings d key s = Ok l s' -> s' = s.
Proof.
  unfold get_strings. destruct (get d key) as [[x|l']|]; unfold ret, raise;
    congruence.
Qed.

(** The [try] block of the researcher never lets an exception out. *)
Lemma search_text_caught (o : Oracle) (thread : string) (s : Store) :
  exists txt,
    search_text o thread s = Ok txt {| ctx := ctx s; calls := S (calls s) |} /\
    forall e, tavily_search o (calls s) thread = inl e ->
              txt = "Search failed: " ^^ str_of_exn e.
Proof.
  unfold search_text, try_except, bind, external, ret. cbv beta iota zeta.
  destruct (tavily_search o (calls s) thread) as [e|hits].
  - eexists. split; [reflexivity|]. now intros e' [= <-].
  - eexists. split; [reflexivity|]. discriminate.
Qed.

(** With an open thread, the researcher that returns has contributed. *)
Lemma researcher_contributes (o : Oracle) (s s' : Store) (r : AgentResult) :
  open_threads (ctx s) <> [] ->
  run_researcher_agent o s = Ok r s' -> contributed r = true.
Proof.
  intros Hopen. unfold run_researcher_agent.
  rewrite (bind_ok read _ s s (ctx s) eq_refl).
  destruct (open_threads (ctx s)) as [|thread rest]; [contradiction|].
  destruct (search_text_caught o thread s) as (txt & Htxt & _).
  rewrite (bind_ok _ _ _ _ _ Htxt).
  unfold bind, external, get_strings, get_number, update, raise, ret.
  cbv beta iota zeta.
  repeat match goal with
         | |- context [match ?x with _ => _ end] =>
             destruct x; cbv beta iota zeta; try discriminate
         end.
  all: now intros [= <- _].
Qed.

(** An exception of the researcher's model call leaves the researcher. *)
Lemma researcher_model_failure (o : Oracle) (s : Store) (thread : string)
      (rest : list string) (e : exn) :
  open_threads (ctx s) = thread :: rest ->
  (forall p, chat_json o (S (calls s)) Researcher p = inl e) ->
  run_researcher_agent o s
  = Raised e {| ctx := ctx s; calls := S (S (calls s)) |}.
Proof.
  intros Hopen Hchat. unfold run_researcher_agent.
  rewrite (bind_ok read _ s s (ctx s) eq_refl), Hopen.
  destruct (search_text_caught o thread s) as (txt & Htxt & _).
  rewrite (bind_ok _ _ _ _ _ Htxt).
  apply bind_raised. unfold external. simpl. now rewrite Hchat.
Qed.

Lemma analyst_model_failure (o : Oracle) (s : Store) (e : exn) :
  (2 <= List.length (findings (ctx s)))%nat ->
  (forall p, chat_json o (calls s) Analyst p = inl e) ->
  run_analyst_agent o s = Raised e {| ctx := ctx s; calls := S (calls s) |}.
Proof.
  intros Hlen Hchat. unfold run_analyst_agent.
  rewrite (bind_ok read _ s s (ctx s) eq_refl).
  destruct (Nat.ltb_spec (List.length (findings (ctx s))) 2); [lia|].
  apply bind_raised. unfold external. now rewrite Hchat.
Qed.

Lemma critic_model_failure (o : Oracle) (s : Store) (e : exn) :
  (3 <= List.length (findings (ctx s)))%nat ->
  (forall p, chat_json o (calls s) Critic p = inl e) ->
  run_critic_agent o s = Raised e {| ctx := ctx s; calls := S (calls s) |}.
Proof.
  intros Hlen Hchat. unfold run_critic_agent.
  rewrite (bind_ok read _ s s (ctx s) eq_refl).
  destruct (Nat.ltb_spec (List.length (findings (ctx s))) 3); [lia|].
  apply bind_raised. unfold external. now rewrite Hchat.
Qed.

Lemma synthesizer_model_failure (o : Oracle) (s : Store) (e : exn) :
  (forall p, chat_text o (calls s) Synthesizer p = inl e) ->
  synthesize o s = Raised e {| ctx := ctx s; calls := S (calls s) |}.
Proof.
  intros Hchat. unfold synthesize. apply bind_raised.
  unfold run_synthesizer_agent.
  rewrite (bind_ok read _ s s (ctx s) eq_refl).
  unfold external. now rewrite Hchat.
Qed.

(** The orchestrator calls the agents bare: an exception of any of the three
    leaves the round. *)
Lemma run_round_raises (o : Oracle) (s : Store) (e : exn) (s' : Store) :
  (run_researcher_agent o s = Raised e s' -> run_round o s = Raised e s') /\
  (forall r1 s1,
     run_researcher_agent o s = Ok r1 s1 ->
     run_analyst_agent o s1 = Raised e s' ->
     run_round o s = Raised e s') /\
  (forall r1 s1 r2 s2,
     run_researcher_agent o s = Ok r1 s1 ->
     run_analyst_agent o s1 = Ok r2 s2 ->
     run_critic_agent o s2 = Raised e s' ->
     run_round o s = Raised e s').
Proof.
  unfold run_round, agents. simpl run_agents. split; [|split].
  - intros H. now do 2 apply bind_raised.
  - intros r1 s1 H1 H2. apply bind_raised.
    rewrite (bind_ok _ _ _ _ _ H1). now apply bind_raised.
  - intros r1 s1 r2 s2 H1 H2 H3. apply bind_raised.
    rewrite (bind_ok _ _ _ _ _ H1), (bind_ok _ _ _ _ _ H2). now apply bind_raised.
Qed.

Lemma run_swarm_from_raises (o : Oracle) (s : Store) (e : exn) (s' : Store) :
  (swarm_loop o (passes (ctx s)) s = Some (Raised e s') ->
   run_swarm_from o s = Some (Raised e s')) /\
  (forall r s1,
     swarm_loop o (passes (ctx s)) s = Some (Ok r s1) ->
     synthesize o s1 = Raised e s' ->
     run_swarm_from o s = Some (Raised e s')).
Proof.
  unfold run_swarm_from. split.
  - now intros ->.
  - intros r s1 -> H. now rewrite H.
Qed.

(** C5, as the code has it.  In a pass that starts with an open thread: a
    failure of the researcher's search is caught inside the researcher, which
    goes on with the text "Search failed: ..." in place of the results; the
    researcher that returns has contributed, search failure or not; and an
    exception of the researcher's model call is caught nowhere: it ends the
    loop in that round.  The same holds of the other model calls, on every
    store: an exception of the analyst's, the critic's or the synthesizer's
    model call leaves the agent; an exception that leaves any of the three
    agents leaves the round, one that leaves the round leaves the loop, and
    one that leaves the loop or the synthesizer leaves [run_swarm]. *)
Theorem failure_handling (o : Oracle) (s0 : Store) (thread : string) (rest : list string) :
  open_threads (ctx s0) = thread :: rest ->
  (exists txt,
     search_text o thread (begin_pass s0)
     = Ok txt {| ctx := next_iteration (ctx s0); calls := S (calls s0) |} /\
     forall e, tavily_search o (calls s0) thread = inl e ->
               txt = "Search failed: " ^^ str_of_exn e) /\
  (forall r s', run_researcher_agent o (begin_pass s0) = Ok r s' ->
                contributed r = true) /\
  (forall e fuel r,
     should_terminate (next_iteration (ctx s0)) = (false, r) ->
     (forall p, chat_json o (S (calls s0)) Researcher p = inl e) ->
     swarm_loop o (S fuel) s0
     = Some (Raised e {| ctx := next_iteration (ctx s0); calls := S (S (calls s0)) |})) /\
  (forall s e,
     (2 <= List.length (findings (ctx s)))%nat ->
     (forall p, chat_json o (calls s) Analyst p = inl e) ->
     run_analyst_agent o s = Raised e {| ctx := ctx s; calls := S (calls s) |}) /\
  (forall s e,
     (3 <= List.length (findings (ctx s)))%nat ->
     (forall p, chat_json o (calls s) Critic p = inl e) ->
     run_critic_agent o s = Raised e {| ctx := ctx s; calls := S (calls s) |}) /\
  (forall s e,
     (forall p, chat_text o (calls s) Synthesizer p = inl e) ->
     synthesize o s = Raised e {| ctx := ctx s; calls := S (calls s) |}) /\
  (forall s e s',
     (run_researcher_agent o s = Raised e s' -> run_round o s = Raised e s') /\
     (forall r1 s1,
        run_researcher_agent o s = Ok r1 s1 ->
        run_analyst_agent o s1 = Raised e s' ->
        run_round o s = Raised e s') /\
     (forall r1 s1 r2 s2,
        run_researcher_agent o s = Ok r1 s1 ->
        run_analyst_agent o s1 = Ok r2 s2 ->
        run_critic_agent o s2 = Raised e s' ->
        run_round o s = Raised e s')) /\
  (forall fuel s r e s',
     should_terminate (next_iteration (ctx s)) = (false, r) ->
     run_round o (begin_pass s) = Raised e s' ->
     swarm_loop o (S fuel) s = Some (Raised e s')) /\
  (forall s e s',
     swarm_loop o (passes (ctx s)) s = Some (Raised e s') ->
     run_swarm_from o s = Some (Raised e s')) /\
  (forall s r s1 e s',
     swarm_loop o (passes (ctx s)) s = Some (Ok r s1) ->
     synthesize o s1 = Raised e s' ->
     run_swarm_from o s = Some (Raised e s')).
Proof.
  intros Hopen. split; [|split; [|split]].
  - apply (search_text_caught o thread (begin_pass s0)).
  - intros r s'. apply researcher_contributes. simpl. rewrite Hopen. discriminate.
  - intros e fuel r Hst Hchat.
    apply (swarm_loop_raised o fuel s0 _ r e Hst).
    unfold run_round, agents. simpl run_agents.
    apply bind_raised. apply bind_raised.
    apply (researcher_model_failure o (begin_pass s0) thread rest e); assumption.
  - split; [exact (analyst_model_failure o)|].
    split; [exact (critic_model_failure o)|].
    split; [exact (synthesizer_model_failure o)|].
    split; [exact (run_round_raises o)|].
    split.
    + intros fuel s r e s'. apply swarm_loop_raised.
    + split.
      * intros s e s'. apply (run_swarm_from_raises o s e s').
      * intros s r s1 e s'. apply (run_swarm_from_raises o s e s').
Qed.

Lemma failure_handling_witness :
  (exists txt,
     search_text Scenarios.fails_once "topic"
       (begin_pass {| ctx := create_shared_context "topic"; calls := 0 |})
     = Ok txt {| ctx := next_iteration (create_shared_context "topic"); calls := 1 |} /\
     forall e, tavily_search Scenarios.fails_once 0 "topic" = inl e ->
               txt = "Search failed: " ^^ str_of_exn e) /\
  (forall r s',
     run_researcher_agent Scenarios.fails_once
       (begin_pass {| ctx := create_shared_context "topic"; calls := 0 |}) = Ok r s' ->
     contributed r = true) /\
  (forall e fuel r,
     should_terminate (next_iteration (create_shared_context "topic")) = (false, r) ->
     (forall p, chat_json Scenarios.fails_once 1 Researcher p = inl e) ->
     swarm_loop Scenarios.fails_once (S fuel)
       {| ctx := create_shared_context "topic"; calls := 0 |}
     = Some (Raised e {| ctx := next_iteration (create_shared_context "topic");
                         calls := 2 |})) /\
  (forall s e,
     (2 <= List.length (findings (ctx s)))%nat ->
     (forall p, chat_json Scenarios.fails_once (calls s) Analyst p = inl e) ->
     run_analyst_agent Scenarios.fails_once s = Raised e {| ctx := ctx s; calls := S (calls s) |}) /\
  (forall s e,
     (3 <= List.length (findings (ctx s)))%nat ->
     (forall p, chat_json Scenarios.fails_once (calls s) Critic p = inl e) ->
     run_critic_agent Scenarios.fails_once s = Raised e {| ctx := ctx s; calls := S (calls s) |}) /\
  (forall s e,
     (forall p, chat_text Scenarios.fails_once (calls s) Synthesizer p = inl e) ->
     synthesize Scenarios.fails_once s = Raised e {| ctx := ctx s; calls := S (calls s) |}) /\
  (forall s e s',
     (run_researcher_agent Scenarios.fails_once s = Raised e s' -> run_round Scenarios.fails_once s = Raised e s') /\
     (forall r1 s1,
        run_researcher_agent Scenarios.fails_once s = Ok r1 s1 ->
        run_analyst_agent Scenarios.fails_once s1 = Raised e s' ->
        run_round Scenarios.fails_once s = Raised e s') /\
     (forall r1 s1 r2 s2,
        run_researcher_agent Scenarios.fails_once s = Ok r1 s1 ->
        run_analyst_agent Scenarios.fails_once s1 = Ok r2 s2 ->
        run_critic_agent Scenarios.fails_once s2 = Raised e s' ->
        run_round Scenarios.fails_once s = Raised e s')) /\
  (forall fuel s r e s',
     should_terminate (next_iteration (ctx s)) = (false, r) ->
     run_round Scenarios.fails_once (begin_pass s) = Raised e s' ->
     swarm_loop Scenarios.fails_once (S fuel) s = Some (Raised e s')) /\
  (forall s e s',
     swarm_loop Scenarios.fails_once (passes (ctx s)) s = Some (Raised e s') ->
     run_swarm_from Scenarios.fails_once s = Some (Raised e s')) /\
  (forall s r s1 e s',
     swarm_loop Scenarios.fails_once (passes (ctx s)) s = Some (Ok r s1) ->
     synthesize Scenarios.fails_once s1 = Raised e s' ->
     run_swarm_from Scenarios.fails_once s = Some (Raised e s')).
Proof.
  apply (failure_handling Scenarios.fails_once
           {| ctx := create_shared_context "topic"; calls := 0 |} "topic" []).
  reflexivity.
Defined.

(** C5 as stated fails: when the model raises in round 1 only, the exception
    leaves [run_swarm] in round 1; there is no round 2. *)
Lemma model_failure_aborts_run :
  run_swarm Scenarios.fails_once "topic"
  = Some (Raised (Exception "APIConnectionError")
            {| ctx := mkContext "topic" [] ["topic"] [] 1 10 0%float [];
               calls := 2 |}).
Proof. reflexivity. Qed.

(** A search that fails does not keep the researcher from contributing. *)
Example search_failure_still_contributes :
  run_researcher_agent Scenarios.search_down
    {| ctx := create_shared_context "topic"; calls := 0 |}
  = Ok (Contribution "findings" ["f"])
      {| ctx := mkContext "topic" ["[RESEARCHER] f"] [] ["topic"] 0 10
                  (0 + 0.05)%float [];
         calls := 2 |}.
Proof. reflexivity. Qed.

(** ** The floor of the confidence *)

Lemma max0_nonneg (x : float) : (0 <=? max0 x)%float = true.
Proof.
  unfold max0. destruct (0 <? x)%float eqn:E; [|reflexivity].
  rewrite ltb_spec in E. rewrite leb_spec.
  unfold SFltb in E. unfold SFleb.
  destruct (SFcompare (Prim2SF 0) (Prim2SF x)) as [[| |]|]; congruence.
Qed.

(** The critic clamps: after every call in which it contributes, the
    confidence is at least 0, whatever adjustment the model answered. *)
Lemma critic_clamps_confidence (o : Oracle) (s s' : Store) (r : AgentResult) :
  run_critic_agent o s = Ok r s' ->
  contributed r = true ->
  (0 <=? confidence (ctx s'))%float = true.
Proof.
  unfold run_critic_agent.
  rewrite (bind_ok read _ s s (ctx s) eq_refl).
  destruct (List.length (findings (ctx s)) <? 3)%nat.
  - intros [= <- _]. discriminate.
  - intros H _.
    do 7 (apply bind_inv in H; destruct H as (? & ? & _ & H)).
    apply bind_inv in H. destruct H as (u & s8 & Hclamp & H).
    apply bind_inv in H. destruct H as (l & s9 & Hget & H).
    apply get_strings_store in Hget. injection H as _ <-. subst s9.
    injection Hclamp as _ <-. simpl. apply max0_nonneg.
Qed.

(** C6 is not met by the researcher (nor by the analyst): they add the boost
    the model answered without the clamp the critic applies.  When the model
    answers the researcher with a boost of -5, the context after the
    researcher's call has a negative confidence, and [run_swarm] returns a
    negative [final_confidence]. *)
Theorem negative_confidence_reachable :
  (exists c, reachable "topic" c /\ (confidence c <? 0)%float = true) /\
  (exists x,
     option_map (field "final_confidence")
       (returned (run_swarm Scenarios.pessimist "topic"))
     = Some (Some (VFloat x)) /\
     (x <? 0)%float = true).
Proof.
  split.
  - exists (ctx (store_of (run_researcher_agent Scenarios.pessimist
                             {| ctx := create_shared_context "topic"; calls := 0 |}))).
    split; [|reflexivity].
    apply (reach_agent "topic" _ Scenarios.pessimist "Researcher").
    + apply reach_created.
    + left. reflexivity.
  - eexists. split; [lazy; reflexivity | reflexivity].
Qed.

(** ** Open and investigated threads *)

Lemma mem_In (x : string) (l : list string) : mem x l = true <-> In x l.
Proof.
  unfold mem. rewrite existsb_exists. split.
  - intros (y & Hin & Heq). apply String.eqb_eq in Heq. now subst.
  - intros Hin. exists x. split; [exact Hin | apply String.eqb_refl].
Qed.

Lemma mem_not_In (x : string) (l : list string) : mem x l = false <-> ~ In x l.
Proof.
  rewrite <- mem_In. destruct (mem x l); split; congruence.
Qed.

Lemma remove_first_In (t x : string) (l : list string) :
  In x (remove_first t l) -> In x l.
Proof.
  induction l as [|y l IH]; simpl; [tauto|].
  destruct (String.eqb t y); simpl; tauto.
Qed.

Lemma remove_first_NoDup (t : string) (l : list string) :
  NoDup l -> NoDup (remove_first t l) /\ ~ In t (remove_first t l).
Proof.
  induction 1 as [|y l Hy Hl IH]; simpl.
  - split; [constructor | tauto].
  - destruct (String.eqb_spec t y) as [->|Hne].
    + split; assumption.
    + destruct IH as [IH1 IH2]. split.
      * constructor; [|exact IH1]. intros Hin. apply Hy.
        now apply remove_first_In in Hin.
      * simpl. intros [Heq|Hin]; [congruence | tauto].
Qed.

Lemma threads_inv_add_thread (c : Context) (t : string) :
  threads_inv c -> threads_inv (add_thread c t).
Proof.
  intros [Hnd Hdis]. unfold add_thread.
  destruct (mem t (investigated c)) eqn:Hi; simpl; [now split|].
  destruct (mem t (open_threads c)) eqn:Ho; simpl; [now split|].
  apply mem_not_In in Hi, Ho. split; simpl.
  - apply NoDup_app; [exact Hnd | repeat constructor; simpl; tauto |].
    intros a Ha [<-|[]]. tauto.
  - intros x Hx Hin. apply in_app_iff in Hin as [Hin|[<-|[]]].
    + exact (Hdis x Hx Hin).
    + tauto.
Qed.

Lemma threads_inv_mark_investigated (t : string) (c : Context) :
  threads_inv c -> threads_inv (mark_investigated t c).
Proof.
  intros [Hnd Hdis]. unfold mark_investigated, threads_inv. simpl.
  destruct (mem t (open_threads c)) eqn:Ho.
  - destruct (remove_first_NoDup t _ Hnd) as [H1 H2]. split; [exact H1|].
    intros x Hx Hin. apply in_app_iff in Hx as [Hx|[<-|[]]].
    + apply (Hdis x Hx). now apply remove_first_In in Hin.
    + tauto.
  - apply mem_not_In in Ho. split; [exact Hnd|].
    intros x Hx Hin. apply in_app_iff in Hx as [Hx|[<-|[]]].
    + exact (Hdis x Hx Hin).
    + tauto.
Qed.

Lemma agent_keeps_threads_inv (o : Oracle) (name : string) (agent_fn : M AgentResult)
      (s : Store) :
  In (name, agent_fn) (agents o) ->
  threads_inv (ctx s) -> threads_inv (ctx (store_of (agent_fn s))).
Proof.
  intros Hin.
  assert (H : respects (fun c c' => threads_inv c -> threads_inv c') agent_fn).
  { apply respects_agent with (o := o) (name := name);
      auto using threads_inv_add_thread, threads_inv_mark_investigated. }
  exact (H s).
Qed.

Lemma reachable_threads_inv (task : string) (c : Context) :
  reachable task c -> threads_inv c.
Proof.
  induction 1 as [|c Hc IH|c o name fn n Hc IH Hin|c Hc IH].
  - split; simpl.
    + repeat constructor. simpl. tauto.
    + intros x [].
  - exact IH.
  - now apply (agent_keeps_threads_inv o name fn {| ctx := c; calls := n |}).
  - exact IH.
Qed.

(** C7. In every reachable context no investigated thread is an open
    thread: a new thread is added only when it is in neither list, and the
    thread the researcher investigated is removed from the open ones when it
    is appended to the investigated ones. *)
Theorem investigated_open_disjoint (task : string) (c : Context) :
  reachable task c -> disjoint (investigated c) (open_threads c).
Proof.
  intros H. apply (reachable_threads_inv task c H).
Qed.

Lemma investigated_open_disjoint_witness :
  disjoint
    (investigated (ctx (store_of (run_researcher_agent Scenarios.steady
                       {| ctx := next_iteration (create_shared_context "topic");
                          calls := 0 |}))))
    (open_threads (ctx (store_of (run_researcher_agent Scenarios.steady
                       {| ctx := next_iteration (create_shared_context "topic");
                          calls := 0 |})))).
Proof.
  apply (investigated_open_disjoint "topic").
  apply (reach_agent "topic" _ Scenarios.steady "Researcher").
  - apply reach_pass, reach_created.
  - left. reflexivity.
Defined.

(** The contexts the loop goes through are reachable ones, so what holds of
    the reachable contexts holds of every run. *)
Lemma run_agents_reachable (task : string) (o : Oracle) (l : list (string * M AgentResult)) :
  (forall name fn, In (name, fn) l -> In (name, fn) (agents o)) ->
  forall n s, reachable task (ctx s) ->
              reachable task (ctx (store_of (run_agents l n s))).
Proof.
  induction l as [|[name fn] l IH]; intros Hl n s Hs; simpl.
  - exact Hs.
  - assert (Hfn : reachable task (ctx (store_of (fn s)))).
    { destruct s as [c k]. apply (reach_agent task c o name); [exact Hs|].
      apply Hl. now left. }
    unfold bind. destruct (fn s) as [r s1|e s1]; simpl in Hfn |- *.
    + apply IH; [|exact Hfn]. intros name' fn' Hin. apply Hl. now right.
    + exact Hfn.
Qed.

Lemma run_round_reachable (task : string) (o : Oracle) (s : Store) :
  reachable task (ctx s) -> reachable task (ctx (store_of (run_round o s))).
Proof.
  intros Hs. unfold run_round.
  pose proof (run_agents_reachable task o (agents o) (fun _ _ H => H) 0%nat s Hs) as Hr.
  unfold bind. destruct (run_agents (agents o) 0%nat s) as [n s1|e s1];
    simpl in Hr |- *; [|exact Hr].
  destruct (n =? 0)%nat; simpl; [apply reach_nudge|]; exact Hr.
Qed.

Lemma swarm_loop_reachable (task : string) (o : Oracle) :
  forall fuel s out,
    reachable task (ctx s) ->
    swarm_loop o fuel s = Some out ->
    reachable task (ctx (store_of out)).
Proof.
  induction fuel as [|fuel IH]; intros s out Hs; simpl; [discriminate|].
  assert (H1 : reachable task (ctx (begin_pass s))) by now apply reach_pass.
  destruct (should_terminate (next_iteration (ctx s))) as [[|] r].
  - intros [= <-]. exact H1.
  - pose proof (run_round_reachable task o (begin_pass s) H1) as Hr.
    destruct (run_round o (begin_pass s)) as [n s2|e s2]; simpl in Hr.
    + now apply IH.
    + intros [= <-]. exact Hr.
Qed.

(** ** Scenario C: rounds without contribution *)

Lemma researcher_idle (o : Oracle) (s : Store) :
  open_threads (ctx s) = [] -> run_researcher_agent o s = Ok NoContribution s.
Proof.
  intros H. unfold run_researcher_agent.
  rewrite (bind_ok read _ s s (ctx s) eq_refl). now rewrite H.
Qed.

Lemma analyst_idle (o : Oracle) (s : Store) :
  (List.length (findings (ctx s)) < 2)%nat ->
  run_analyst_agent o s = Ok NoContribution s.
Proof.
  intros H. unfold run_analyst_agent.
  rewrite (bind_ok read _ s s (ctx s) eq_refl).
  destruct (Nat.ltb_spec (List.length (findings (ctx s))) 2); [reflexivity | lia].
Qed.

Lemma critic_idle (o : Oracle) (s : Store) :
  (List.length (findings (ctx s)) < 3)%nat ->
  run_critic_agent o s = Ok NoContribution s.
Proof.
  intros H. unfold run_critic_agent.
  rewrite (bind_ok read _ s s (ctx s) eq_refl).
  destruct (Nat.ltb_spec (List.length (findings (ctx s))) 3); [reflexivity | lia].
Qed.

(** A round in which no agent contributes makes no external call and adds
    0.1 to the confidence. *)
Lemma stalled_round (o : Oracle) (s : Store) :
  open_threads (ctx s) = [] ->
  (List.length (findings (ctx s)) < 2)%nat ->
  run_round o s
  = Ok 0%nat {| ctx := add_confidence 0.1%float (ctx s); calls := calls s |}.
Proof.
  intros Hopen Hlen. unfold run_round, agents. simpl run_agents.
  rewrite (bind_ok _ _ s s 0%nat); [reflexivity|].
  rewrite (bind_ok _ _ _ _ _ (researcher_idle o s Hopen)).
  rewrite (bind_ok _ _ _ _ _ (analyst_idle o s Hlen)).
  rewrite (bind_ok _ _ s s NoContribution); [reflexivity|].
  apply critic_idle. lia.
Qed.

Lemma stall_passes_fields (k : nat) :
  forall c,
    open_threads (stall_passes k c) = open_threads c /\
    findings (stall_passes k c) = findings c /\
    max_iterations (stall_passes k c) = max_iterations c /\
    iteration (stall_passes k c) = iteration c + Z.of_nat k /\
    confidence (stall_passes k c) = nudged k (confidence c).
Proof.
  induction k as [|k IH]; intros c; simpl stall_passes; simpl nudged.
  - repeat split. lia.
  - destruct (IH (add_confidence 0.1%float (next_iteration c)))
      as (H1 & H2 & H3 & H4 & H5).
    rewrite H1, H2, H3, H4, H5. simpl. repeat split. lia.
Qed.

Lemma stall_loop (o : Oracle) :
  forall (k fuel : nat) (s : Store),
    open_threads (ctx s) = [] ->
    (List.length (findings (ctx s)) < 2)%nat ->
    iteration (ctx s) + Z.of_nat k < max_iterations (ctx s) ->
    (forall j, (j < k)%nat ->
               (0.85 <=? nudged j (confidence (ctx s)))%float = false) ->
    swarm_loop o (k + fuel) s
    = swarm_loop o fuel {| ctx := stall_passes k (ctx s); calls := calls s |}.
Proof.
  induction k as [|k IH]; intros fuel s Hopen Hlen Hit Hconf.
  - destruct s. reflexivity.
  - change (S k + fuel)%nat with (S (k + fuel)).
    rewrite (swarm_loop_continue o (k + fuel) s
               {| ctx := add_confidence 0.1%float (next_iteration (ctx s));
                  calls := calls s |} NoReason 0).
    + rewrite IH; simpl; auto; [lia|].
      intros j Hj. apply (Hconf (S j)). lia.
    + apply should_terminate_false; simpl.
      * lia.
      * apply (Hconf 0%nat). lia.
      * rewrite Hopen. simpl.
        destruct (Nat.ltb_spec 3 (List.length (findings (ctx s)))); [lia | reflexivity].
    + apply (stalled_round o (begin_pass s)); assumption.
Qed.

Lemma below_threshold_until_9 (j : nat) :
  (j < 9)%nat -> (0.85 <=? nudged j 0)%float = false.
Proof.
  intros Hj. do 9 (destruct j as [|j]; [reflexivity|]). lia.
Qed.

Lemma stall_ends_on_bound (o : Oracle) (s : Store) (fuel : nat) :
  open_threads (ctx s) = [] ->
  (List.length (findings (ctx s)) < 2)%nat ->
  iteration (ctx s) = 0 ->
  confidence (ctx s) = 0%float ->
  1 <= max_iterations (ctx s) <= 10 ->
  (Z.to_nat (max_iterations (ctx s)) <= fuel)%nat ->
  exists s',
    swarm_loop o fuel s = Some (Ok MaxIterations s') /\
    iteration (ctx s') = max_iterations (ctx s) /\
    confidence (ctx s') = nudged (Z.to_nat (max_iterations (ctx s) - 1)) 0 /\
    calls s' = calls s.
Proof.
  intros Hopen Hlen Hit Hconf Hmax Hfuel.
  remember (Z.to_nat (max_iterations (ctx s) - 1)) as k eqn:Hk.
  destruct (stall_passes_fields k (ctx s)) as (F1 & F2 & F3 & F4 & F5).
  replace fuel with (k + S (fuel - k - 1))%nat by lia.
  rewrite stall_loop; try assumption; [|lia|].
  - exists {| ctx := next_iteration (stall_passes k (ctx s)); calls := calls s |}.
    split; [|split; [|split]].
    + apply (swarm_loop_stop o _ {| ctx := stall_passes k (ctx s); calls := calls s |}).
      apply should_terminate_max.
      change (max_iterations (stall_passes k (ctx s))
              <= iteration (stall_passes k (ctx s)) + 1). lia.
    + change (iteration (stall_passes k (ctx s)) + 1 = max_iterations (ctx s)). lia.
    + change (confidence (stall_passes k (ctx s)) = nudged k 0).
      now rewrite F5, Hconf.
    + reflexivity.
  - intros j Hj. rewrite Hconf. apply below_threshold_until_9. lia.
Qed.

Lemma stall_ends_on_threshold (o : Oracle) (s : Store) (fuel : nat) :
  open_threads (ctx s) = [] ->
  (List.length (findings (ctx s)) < 2)%nat ->
  iteration (ctx s) = 0 ->
  confidence (ctx s) = 0%float ->
  10 < max_iterations (ctx s) ->
  (10 <= fuel)%nat ->
  exists s',
    swarm_loop o fuel s = Some (Ok (ConfidenceThreshold (nudged 9 0)) s') /\
    iteration (ctx s') = 10 /\
    calls s' = calls s.
Proof.
  intros Hopen Hlen Hit Hconf Hgt Hfuel.
  assert (Hk : exists k, k = 9%nat) by eauto. destruct Hk as [k Hk].
  rewrite <- Hk.
  destruct (stall_passes_fields k (ctx s)) as (F1 & F2 & F3 & F4 & F5).
  replace fuel with (k + S (fuel - 10))%nat by lia.
  rewrite stall_loop; try assumption; [|lia|].
  - exists {| ctx := next_iteration (stall_passes k (ctx s)); calls := calls s |}.
    split; [|split].
    + apply (swarm_loop_stop o _ {| ctx := stall_passes k (ctx s); calls := calls s |}).
      rewrite Hconf in F5. rewrite <- F5.
      apply (should_terminate_confident (next_iteration (stall_passes k (ctx s)))).
      * change (iteration (stall_passes k (ctx s)) + 1
                < max_iterations (stall_passes k (ctx s))). lia.
      * change ((0.85 <=? confidence (stall_passes k (ctx s)))%float = true).
        rewrite F5, Hk. reflexivity.
    + change (iteration (stall_passes k (ctx s)) + 1 = 10). lia.
    + reflexivity.
  - intros j Hj. rewrite Hconf. apply below_threshold_until_9. lia.
Qed.

(** C8, as the code has it.  A round in which no agent contributes adds 0.1
    to the confidence.  On a context at iteration 0 and confidence 0 on which
    no agent ever contributes (no open thread, fewer than 2 findings), every
    round is such a round; with a bound of at most 10 on the iterations (the
    source fixes 10) the loop stops on the bound, at an iteration count equal
    to it, with the reason "Max iterations reached"; with a larger bound the
    nine nudges reach the threshold and the tenth pass stops the loop with
    the reason "Confidence threshold reached". *)
Theorem stall_ends (o : Oracle) (s : Store) (fuel : nat) :
  open_threads (ctx s) = [] ->
  (List.length (findings (ctx s)) < 2)%nat ->
  iteration (ctx s) = 0 ->
  confidence (ctx s) = 0%float ->
  1 <= max_iterations (ctx s) ->
  (Z.to_nat (max_iterations (ctx s)) <= fuel)%nat ->
  (forall n s2, run_round o s = Ok n s2 ->
     n = 0%nat /\ confidence (ctx s2) = (confidence (ctx s) + 0.1)%float) /\
  (max_iterations (ctx s) <= 10 ->
   exists s',
     swarm_loop o fuel s = Some (Ok MaxIterations s') /\
     iteration (ctx s') = max_iterations (ctx s) /\
     confidence (ctx s') = nudged (Z.to_nat (max_iterations (ctx s) - 1)) 0 /\
     calls s' = calls s) /\
  (10 < max_iterations (ctx s) ->
   exists s',
     swarm_loop o fuel s = Some (Ok (ConfidenceThreshold (nudged 9 0)) s') /\
     iteration (ctx s') = 10 /\
     calls s' = calls s).
Proof.
  intros Hopen Hlen Hit Hconf Hmax Hfuel. split; [|split].
  - intros n s2. rewrite (stalled_round o s Hopen Hlen).
    intros [= <- <-]. split; reflexivity.
  - intros Hle. apply stall_ends_on_bound; auto.
  - intros Hgt. apply stall_ends_on_threshold; auto. lia.
Qed.

Lemma stall_ends_witness :
  (forall n s2,
     run_round Scenarios.quiet {| ctx := Scenarios.stalled 10; calls := 0 |} = Ok n s2 ->
     n = 0%nat /\
     confidence (ctx s2) = (confidence (Scenarios.stalled 10) + 0.1)%float) /\
  (max_iterations (Scenarios.stalled 10) <= 10 ->
   exists s',
     swarm_loop Scenarios.quiet 10 {| ctx := Scenarios.stalled 10; calls := 0 |}
     = Some (Ok MaxIterations s') /\
     iteration (ctx s') = max_iterations (Scenarios.stalled 10) /\
     confidence (ctx s')
     = nudged (Z.to_nat (max_iterations (Scenarios.stalled 10) - 1)) 0 /\
     calls s' = 0%nat) /\
  (10 < max_iterations (Scenarios.stalled 10) ->
   exists s',
     swarm_loop Scenarios.quiet 10 {| ctx := Scenarios.stalled 10; calls := 0 |}
     = Some (Ok (ConfidenceThreshold (nudged 9 0)) s') /\
     iteration (ctx s') = 10 /\
     calls s' = 0%nat).
Proof.
  apply (stall_ends Scenarios.quiet {| ctx := Scenarios.stalled 10; calls := 0 |} 10);
    simpl; solve [reflexivity | lia].
Defined.

(** C8 as stated fails for a bound above 10: with a bound of 20 the stall
    ends at the tenth pass on the confidence the nudges built up, not on the
    bound. *)
Lemma stall_ends_on_confidence :
  swarm_loop Scenarios.quiet 20 {| ctx := Scenarios.stalled 20; calls := 0 |}
  = Some (Ok (ConfidenceThreshold (nudged 9 0))
            {| ctx := mkContext "topic" [] [] [] 10 20 (nudged 9 0) [];
               calls := 0 |}) /\
  (0.85 <=? nudged 9 0)%float = true.
Proof. split; reflexivity. Qed.

(** ** What [run_swarm] returns *)

Lemma run_swarm_from_report (o : Oracle) (s : Store) (rep : list (string * value)) :
  returned (run_swarm_from o s) = Some rep ->
  exists c final_answer, rep = report c final_answer.
Proof.
  unfold run_swarm_from.
  destruct (swarm_loop o (passes (ctx s)) s) as [[r s1|e s1]|]; simpl;
    try discriminate.
  destruct (synthesize_outcome o s1) as [[a Ha]|[e He]].
  - rewrite Ha. intros [= <-]. eauto.
  - rewrite He. discriminate.
Qed.

(** C9, as the code has it.  The dict a run returns has the keys [task],
    [iterations], [total_findings], [threads_investigated],
    [final_confidence], [findings] and [answer], and no other: the reason
    computed by [should_terminate] is not part of it. *)
Theorem report_has_no_reason (o : Oracle) (task : string) (rep : list (string * value)) :
  returned (run_swarm o task) = Some rep ->
  keys rep = ["task"; "iterations"; "total_findings"; "threads_investigated";
              "final_confidence"; "findings"; "answer"] /\
  field "terminationReason" rep = None /\
  field "termination_reason" rep = None /\
  field "reason" rep = None.
Proof.
  intros H. apply run_swarm_from_report in H as (c & a & ->).
  repeat split.
Qed.

Lemma report_has_no_reason_witness :
  keys (report (mkContext "topic" [] [] ["topic"] 10 10
                  (0 + 0.05 + 0.1 + 0.1 + 0.1 + 0.1 + 0.1 + 0.1 + 0.1 + 0.1)%float [])
          EmptyString)
  = ["task"; "iterations"; "total_findings"; "threads_investigated";
     "final_confidence"; "findings"; "answer"] /\
  field "terminationReason"
    (report (mkContext "topic" [] [] ["topic"] 10 10
               (0 + 0.05 + 0.1 + 0.1 + 0.1 + 0.1 + 0.1 + 0.1 + 0.1 + 0.1)%float [])
       EmptyString) = None /\
  field "termination_reason"
    (report (mkContext "topic" [] [] ["topic"] 10 10
               (0 + 0.05 + 0.1 + 0.1 + 0.1 + 0.1 + 0.1 + 0.1 + 0.1 + 0.1)%float [])
       EmptyString) = None /\
  field "reason"
    (report (mkContext "topic" [] [] ["topic"] 10 10
               (0 + 0.05 + 0.1 + 0.1 + 0.1 + 0.1 + 0.1 + 0.1 + 0.1 + 0.1)%float [])
       EmptyString) = None.
Proof.
  apply (report_has_no_reason Scenarios.quiet "topic"). reflexivity.
Defined.

(** C9 as stated fails: a run that stopped on the bound of the iterations
    returns a dict in which no key holds a termination reason. *)
Lemma returned_report_without_reason :
  exists rep,
    returned (run_swarm Scenarios.quiet "topic") = Some rep /\
    keys rep = ["task"; "iterations"; "total_findings"; "threads_investigated";
                "final_confidence"; "findings"; "answer"] /\
    field "terminationReason" rep = None.
Proof.
  eexists. split; [lazy; reflexivity|]. split; reflexivity.
Qed.

End SwarmAgentTheory.

(** * Properties of 06_swarm.py *)

Module LangGraphSwarmTheory.

Import LangGraphSwarm.

Lemma cycle_iteration (llm : Llm) (n : nat) (st st' : SwarmState) :
  cycle llm n st = inr st' -> iteration st' = iteration st + 1.
Proof.
  unfold cycle, solver_agent, critic_agent. cbv zeta.
  destruct (llm n solver _) as [e|sol]; [discriminate|].
  destruct (llm (S n) critic _) as [e|fb]; [discriminate|].
  intros [= <-]. reflexivity.
Qed.

Lemma cycle_answers (llm : Llm) (n : nat) (st : SwarmState) :
  answers llm -> exists st', cycle llm n st = inr st'.
Proof.
  intros Hllm. unfold cycle, solver_agent, critic_agent. cbv zeta.
  match goal with |- context [llm n solver ?p] => destruct (Hllm n solver p) as [sol ->] end.
  match goal with |- context [llm (S n) critic ?p] => destruct (Hllm (S n) critic p) as [fb ->] end.
  eauto.
Qed.

Lemma after_turns_iteration (llm : Llm) :
  forall k n st st',
    after_turns llm k n st = inr st' -> iteration st' = iteration st + Z.of_nat k.
Proof.
  induction k as [|k IH]; intros n st st'; simpl after_turns.
  - intros [= <-]. lia.
  - destruct (cycle llm n st) as [e|st1] eqn:Hc; [discriminate|].
    intros H. apply IH in H. apply cycle_iteration in Hc. lia.
Qed.

(** The graph leaves the cycle after the first turn whose state satisfies
    [stops]. *)
Lemma invoke_first_stop (llm : Llm) :
  answers llm ->
  forall fuel n st,
    iteration st < MAX_ITERATIONS ->
    MAX_ITERATIONS - iteration st <= Z.of_nat fuel ->
    exists k final,
      (1 <= k)%nat /\
      invoke llm fuel n st = Some (inr final) /\
      after_turns llm k n st = inr final /\
      iteration final <= MAX_ITERATIONS /\
      stops final /\
      forall j, (1 <= j < k)%nat ->
                exists stj, after_turns llm j n st = inr stj /\ ~ stops stj.
Proof.
  intros Hllm. induction fuel as [|fuel IH]; intros n st Hlt Hfuel; [lia|].
  destruct (cycle_answers llm n st Hllm) as [st1 H1].
  pose proof (cycle_iteration llm n st st1 H1) as Hit.
  simpl invoke. rewrite H1. unfold should_continue.
  assert (Hone : after_turns llm 1 n st = inr st1) by (simpl; now rewrite H1).
  destruct (is_complete st1) eqn:Hdone.
  - exists 1%nat, st1.
    split; [lia|]. split; [reflexivity|]. split; [exact Hone|].
    split; [lia|]. split; [now left|]. intros j Hj. lia.
  - destruct (Z.geb_spec (iteration st1) MAX_ITERATIONS) as [Hge|Hlt1].
    + exists 1%nat, st1.
      split; [lia|]. split; [reflexivity|]. split; [exact Hone|].
      split; [lia|]. split; [now right|]. intros j Hj. lia.
    + destruct (IH (S (S n)) st1 Hlt1)
        as (k & final & Hk & Hinv & Haft & Hle & Hstop & Hbefore); [lia|].
      assert (Hshift : forall j, after_turns llm (S j) n st
                                 = after_turns llm j (S (S n)) st1)
        by (intros j; simpl; now rewrite H1).
      exists (S k), final.
      split; [lia|]. split; [exact Hinv|]. split; [now rewrite Hshift|].
      split; [exact Hle|]. split; [exact Hstop|].
      intros [|[|j]] Hj; [lia| |].
      * exists st1. split; [exact Hone|].
        unfold stops. intros [Hc|Hm]; [congruence | lia].
      * destruct (Hbefore (S j)) as (stj & Hstj & Hns); [lia|].
        exists stj. split; [now rewrite Hshift | exact Hns].
Qed.

(** C10. Started as [main] starts it, with a model that answers, the graph
    leaves the cycle after the first turn at whose end the critic has set
    [is_complete] or [iteration >= MAX_ITERATIONS] holds: it returns the state
    after [k] turns for some [k] between 1 and 3, that state satisfies one of
    the two conditions and reports [iteration = k], and the state after every
    earlier turn satisfied neither.  In particular, when the critic approves
    for the first time in turn 2, the run ends with [iteration = 2] and
    [is_complete = True]. *)
Theorem cycle_stops_at_first (llm : Llm) (problem : string) (fuel : nat) :
  answers llm ->
  (3 <= fuel)%nat ->
  exists k final,
    (1 <= k <= 3)%nat /\
    invoke llm fuel 0 (initial_state problem) = Some (inr final) /\
    after_turns llm k 0 (initial_state problem) = inr final /\
    iteration final = Z.of_nat k /\
    stops final /\
    (forall j, (1 <= j < k)%nat ->
       exists stj, after_turns llm j 0 (initial_state problem) = inr stj /\
                   ~ stops stj) /\
    (forall st1 st2,
       after_turns llm 1 0 (initial_state problem) = inr st1 ->
       is_complete st1 = false ->
       after_turns llm 2 0 (initial_state problem) = inr st2 ->
       is_complete st2 = true ->
       k = 2%nat /\ iteration final = 2 /\ is_complete final = true).
Proof.
  intros Hllm Hfuel.
  destruct (invoke_first_stop llm Hllm fuel 0 (initial_state problem))
    as (k & final & Hk & Hinv & Haft & Hle & Hstop & Hbefore).
  { reflexivity. }
  { unfold MAX_ITERATIONS. simpl. lia. }
  pose proof (after_turns_iteration llm k 0 _ _ Haft) as Hit. simpl in Hit.
  unfold MAX_ITERATIONS in Hle.
  exists k, final.
  split; [lia|]. do 5 (split; [assumption|]).
  intros st1 st2 H1 Hc1 H2 Hc2.
  pose proof (after_turns_iteration llm 1 0 _ _ H1) as Hi1. simpl in Hi1.
  assert (Hk2 : k = 2%nat).
  { destruct (Nat.lt_trichotomy k 2) as [Hlt|[Heq|Hgt]]; [|exact Heq|].
    - assert (k = 1%nat) by lia. subst k.
      rewrite H1 in Haft. injection Haft as <-.
      destruct Hstop as [Hc|Hm]; [congruence | unfold MAX_ITERATIONS in Hm; lia].
    - destruct (Hbefore 2%nat) as (stj & Hstj & Hns); [lia|].
      rewrite H2 in Hstj. injection Hstj as <-.
      exfalso. apply Hns. now left. }
  subst k. rewrite H2 in Haft. injection Haft as <-.
  repeat split; [lia | exact Hc2].
Qed.

Lemma cycle_stops_at_first_witness :
  exists k final,
    (1 <= k <= 3)%nat /\
    invoke Scenarios.approves_second 3 0 (initial_state "p") = Some (inr final) /\
    after_turns Scenarios.approves_second k 0 (initial_state "p") = inr final /\
    iteration final = Z.of_nat k /\
    stops final /\
    (forall j, (1 <= j < k)%nat ->
       exists stj, after_turns Scenarios.approves_second j 0 (initial_state "p") = inr stj /\
                   ~ stops stj) /\
    (forall st1 st2,
       after_turns Scenarios.approves_second 1 0 (initial_state "p") = inr st1 ->
       is_complete st1 = false ->
       after_turns Scenarios.approves_second 2 0 (initial_state "p") = inr st2 ->
       is_complete st2 = true ->
       k = 2%nat /\ iteration final = 2 /\ is_complete final = true).
Proof.
  apply (cycle_stops_at_first Scenarios.approves_second "p" 3).
  - intros n node prompt. destruct node; simpl.
    + eexists. reflexivity.
    + destruct (n =? 1)%nat; eexists; reflexivity.
  - lia.
Defined.

(** Scenario B, run: the critic asks for more work in turn 1 and approves in
    turn 2. *)
Example approves_second_run :
  option_map (fun r => match r with
                       | inr st => Some (iteration st, is_complete st)
                       | inl _ => None
                       end)
    (invoke Scenarios.approves_second 3 0 (initial_state "p"))
  = Some (Some (2, true)).
Proof. reflexivity. Qed.

End LangGraphSwarmTheory.

(** * Further properties of swarm_agent.py *)

Module SwarmAgentExtras.

Import SwarmAgent SwarmAgentUpdates SwarmAgentTheory.

(** ** Triples over the shared context

    [triple P m Q E]: started on a context satisfying [P], the computation
    [m] returns a value and a context satisfying [Q], or raises in a context
    satisfying [E]. *)

Definition triple {A : Type} (P : Context -> Prop) (m : M A)
           (Q : A -> Context -> Prop) (E : Context -> Prop) : Prop :=
  forall s, P (ctx s) ->
            match m s with
            | Ok a s' => Q a (ctx s')
            | Raised _ s' => E (ctx s')
            end.

(** [m] leaves the context as it is. *)
Definition keeps {A : Type} (m : M A) : Prop :=
  forall s, ctx (store_of (m s)) = ctx s.

Lemma triple_ret {A : Type} (a : A) (P : Context -> Prop)
      (Q : A -> Context -> Prop) (E : Context -> Prop) :
  (forall c, P c -> Q a c) -> triple P (ret a) Q E.
Proof. intros H s Hs. now apply H. Qed.

Lemma triple_read (P : Context -> Prop) (Q : Context -> Context -> Prop)
      (E : Context -> Prop) :
  (forall c, P c -> Q c c) -> triple P read Q E.
Proof. intros H s Hs. now apply H. Qed.

Lemma triple_update (f : Context -> Context) (P : Context -> Prop)
      (Q : unit -> Context -> Prop) (E : Context -> Prop) :
  (forall c, P c -> Q tt (f c)) -> triple P (update f) Q E.
Proof. intros H s Hs. now apply H. Qed.

Lemma triple_keeps {A : Type} (m : M A) (P : Context -> Prop)
      (Q : A -> Context -> Prop) (E : Context -> Prop) :
  keeps m -> (forall a c, P c -> Q a c) -> (forall c, P c -> E c) ->
  triple P m Q E.
Proof.
  intros Hk HQ HE s Hs. specialize (Hk s).
  destruct (m s) as [a s'|e s']; simpl in Hk; rewrite Hk; auto.
Qed.

Lemma triple_bind {A B : Type} (m : M A) (k : A -> M B) (P : Context -> Prop)
      (R : A -> Context -> Prop) (Q : B -> Context -> Prop) (E : Context -> Prop) :
  triple P m R E -> (forall a, triple (R a) (k a) Q E) -> triple P (bind m k) Q E.
Proof.
  intros Hm Hk s Hs. unfold bind. specialize (Hm s Hs).
  destruct (m s) as [a s'|e s']; [now apply Hk | exact Hm].
Qed.

Lemma keeps_external {A : Type} (f : nat -> exn + A) : keeps (external f).
Proof. intros s. unfold external. now destruct (f (calls s)). Qed.

Lemma keeps_get_strings (d : dict) (key : string) : keeps (get_strings d key).
Proof. intros s. unfold get_strings. now destruct (get d key) as [[x|l]|]. Qed.

Lemma keeps_get_number (d : dict) (key : string) (x : float) :
  keeps (get_number d key x).
Proof. intros s. unfold get_number. now destruct (get d key) as [[y|l]|]. Qed.

Lemma keeps_search_text (o : Oracle) (thread : string) : keeps (search_text o thread).
Proof.
  intros s. destruct (search_text_caught o thread s) as (txt & H & _).
  now rewrite H.
Qed.

(** ** Every agent call is a sequence of elementary writes *)

Lemma updates_trans (a b c : Context) : updates a b -> updates b c -> updates a c.
Proof.
  intros Hab Hbc. induction Hbc as [|b c d Hbc IH Hcd]; [exact Hab|].
  eapply updates_write; [now apply IH | exact Hcd].
Qed.

Lemma tagged_with (tag body : string) : In tag tags -> tagged (tag ^^ body).
Proof. intros H. now exists tag, body. Qed.

Section Writes.

Variable c0 : Context.

(** The assertion carried through an agent: the context comes from [c0] by
    elementary writes, and [thread] is still open. *)
Definition written (thread : option string) (c : Context) : Prop :=
  updates c0 c /\
  match thread with
  | Some t => In t (open_threads c)
  | None => True
  end.

Lemma written_findings (thread : option string) (tag : string) (l : list string) :
  In tag tags ->
  forall c, written thread c ->
            written thread (fold_left (fun c f => add_finding c (tag ^^ f)) l c).
Proof.
  intros Htag. induction l as [|f l IH]; intros c Hc; simpl; [exact Hc|].
  apply IH. destruct Hc as [Hu Ht]. split.
  - eapply updates_write; [exact Hu|]. apply el_finding. now apply tagged_with.
  - exact Ht.
Qed.

Lemma add_thread_keeps_open (c : Context) (t x : string) :
  In x (open_threads c) -> In x (open_threads (add_thread c t)).
Proof.
  intros H. unfold add_thread. destruct (negb _ && negb _); simpl; [|exact H].
  apply in_app_iff. now left.
Qed.

Lemma written_threads (thread : option string) (g : string -> string) (l : list string) :
  forall c, written thread c ->
            written thread (fold_left (fun c t => add_thread c (g t)) l c).
Proof.
  induction l as [|t l IH]; intros c Hc; simpl; [exact Hc|].
  apply IH. destruct Hc as [Hu Ht]. split.
  - eapply updates_write; [exact Hu | apply el_thread].
  - destruct thread as [x|]; [now apply add_thread_keeps_open | exact I].
Qed.

Lemma written_confidence (thread : option string) (x : float) (c : Context) :
  written thread c -> written thread (add_confidence x c).
Proof.
  intros [Hu Ht]. split; [|exact Ht].
  eapply updates_write; [exact Hu | apply el_confidence].
Qed.

Lemma written_clamp (thread : option string) (c : Context) :
  written thread c -> written thread (clamp_confidence c).
Proof.
  intros [Hu Ht]. split; [|exact Ht].
  eapply updates_write; [exact Hu | apply el_clamp].
Qed.

Lemma written_investigated (t : string) (c : Context) :
  written (Some t) c -> written None (mark_investigated t c).
Proof.
  intros [Hu Ht]. split; [|exact I].
  eapply updates_write; [exact Hu | now apply el_investigated].
Qed.

Lemma written_forget (thread : option string) (c : Context) :
  written thread c -> written None c.
Proof. intros [Hu _]. now split. Qed.

(** A step that leaves the context alone, then the rest. *)
Lemma step_keeps {A B : Type} (m : M A) (k : A -> M B) (thread : option string)
      (Q : B -> Context -> Prop) :
  keeps m ->
  (forall a, triple (written thread) (k a) Q (written None)) ->
  triple (written thread) (bind m k) Q (written None).
Proof.
  intros Hm Hk. apply (triple_bind m k _ (fun _ => written thread)); [|exact Hk].
  apply triple_keeps; eauto using written_forget.
Qed.

(** A write, then the rest. *)
Lemma step_update {B : Type} (f : Context -> Context) (k : unit -> M B)
      (thread thread' : option string) (Q : B -> Context -> Prop) :
  (forall c, written thread c -> written thread' (f c)) ->
  (forall u, triple (written thread') (k u) Q (written None)) ->
  triple (written thread) (bind (update f) k) Q (written None).
Proof.
  intros Hf Hk. apply (triple_bind _ k _ (fun _ => written thread')); [|exact Hk].
  now apply triple_update.
Qed.

Lemma step_ret {A : Type} (a : A) (thread : option string) :
  triple (written thread) (ret a) (fun _ => written None) (written None).
Proof. apply triple_ret. intros c. apply written_forget. Qed.

(** What a triple on [written] says of one run of the computation. *)
Lemma triple_run {A : Type} (m : M A) (thread : option string) (s : Store) :
  triple (written thread) m (fun _ => written None) (written None) ->
  written thread (ctx s) ->
  updates c0 (ctx (store_of (m s))).
Proof.
  intros Hm Hs. specialize (Hm s Hs).
  destruct (m s) as [a s'|e s']; simpl; apply Hm.
Qed.

End Writes.

Lemma researcher_updates (o : Oracle) (s : Store) :
  updates (ctx s) (ctx (store_of (run_researcher_agent o s))).
Proof.
  unfold run_researcher_agent.
  rewrite (bind_ok read _ s s (ctx s) eq_refl).
  destruct (open_threads (ctx s)) as [|thread rest] eqn:Hopen;
    [apply updates_refl|].
  apply (triple_run (ctx s) _ (Some thread)).
  - apply step_keeps; [apply keeps_search_text | intros result_text].
    apply step_keeps; [apply keeps_external | intros result].
    apply step_keeps; [apply keeps_get_strings | intros found].
    apply (step_update _ _ _ _ (Some thread));
      [apply written_findings; now left | intros _].
    apply step_keeps; [apply keeps_get_strings | intros new_threads].
    apply (step_update _ _ _ _ (Some thread));
      [apply (written_threads _ _ (fun t => t)) | intros _].
    apply step_keeps; [apply keeps_get_number | intros boost].
    apply (step_update _ _ _ _ (Some thread));
      [apply written_confidence | intros _].
    apply (step_update _ _ _ _ None);
      [apply written_investigated | intros _].
    apply step_keeps; [apply keeps_get_strings | intros found'].
    apply step_ret.
  - split; [apply updates_refl|]. rewrite Hopen. now left.
Qed.

Lemma analyst_updates (o : Oracle) (s : Store) :
  updates (ctx s) (ctx (store_of (run_analyst_agent o s))).
Proof.
  unfold run_analyst_agent.
  rewrite (bind_ok read _ s s (ctx s) eq_refl).
  destruct (List.length (findings (ctx s)) <? 2)%nat; [apply updates_refl|].
  apply (triple_run (ctx s) _ None).
  - apply step_keeps; [apply keeps_external | intros result].
    apply step_keeps; [apply keeps_get_strings | intros patterns].
    apply (step_update _ _ _ _ None);
      [apply written_findings; right; now left | intros _].
    apply step_keeps; [apply keeps_get_strings | intros gaps].
    apply (step_update _ _ _ _ None);
      [apply (written_threads _ _ (fun t => t)) | intros _].
    apply step_keeps; [apply keeps_get_number | intros boost].
    apply (step_update _ _ _ _ None);
      [apply written_confidence | intros _].
    apply step_keeps; [apply keeps_get_strings | intros patterns'].
    apply step_ret.
  - split; [apply updates_refl | exact I].
Qed.

Lemma critic_updates (o : Oracle) (s : Store) :
  updates (ctx s) (ctx (store_of (run_critic_agent o s))).
Proof.
  unfold run_critic_agent.
  rewrite (bind_ok read _ s s (ctx s) eq_refl).
  destruct (List.length (findings (ctx s)) <? 3)%nat; [apply updates_refl|].
  apply (triple_run (ctx s) _ None).
  - apply step_keeps; [apply keeps_external | intros result].
    apply step_keeps; [apply keeps_get_strings | intros challenges].
    apply (step_update _ _ _ _ None);
      [apply written_findings; right; right; now left | intros _].
    apply step_keeps; [apply keeps_get_strings | intros claims].
    apply (step_update _ _ _ _ None);
      [apply (written_threads _ _ (fun claim => "Verify: " ^^ claim)) | intros _].
    apply step_keeps; [apply keeps_get_number | intros adjustment].
    apply (step_update _ _ _ _ None);
      [apply written_confidence | intros _].
    apply (step_update _ _ _ _ None);
      [apply written_clamp | intros _].
    apply step_keeps; [apply keeps_get_strings | intros challenges'].
    apply step_ret.
  - split; [apply updates_refl | exact I].
Qed.

Lemma agent_updates (o : Oracle) (name : string) (agent_fn : M AgentResult) (s : Store) :
  In (name, agent_fn) (agents o) ->
  updates (ctx s) (ctx (store_of (agent_fn s))).
Proof.
  unfold agents. simpl.
  intros [H|[H|[H|[]]]]; inversion H; subst;
    auto using researcher_updates, analyst_updates, critic_updates.
Qed.

Lemma run_agents_updates (o : Oracle) (l : list (string * M AgentResult)) :
  (forall name fn, In (name, fn) l -> In (name, fn) (agents o)) ->
  forall n s, updates (ctx s) (ctx (store_of (run_agents l n s))).
Proof.
  induction l as [|[name fn] l IH]; intros Hl n s; simpl.
  - apply updates_refl.
  - pose proof (agent_updates o name fn s (Hl name fn (or_introl eq_refl))) as Hfn.
    unfold bind. destruct (fn s) as [r s1|e s1]; simpl in Hfn |- *; [|exact Hfn].
    eapply updates_trans; [exact Hfn|].
    apply IH. intros name' fn' Hin. apply Hl. now right.
Qed.

Lemma run_round_updates (o : Oracle) (s : Store) :
  updates (ctx s) (ctx (store_of (run_round o s))).
Proof.
  unfold run_round.
  pose proof (run_agents_updates o (agents o) (fun _ _ H => H) 0%nat s) as Hr.
  unfold bind. destruct (run_agents (agents o) 0%nat s) as [n s1|e s1];
    simpl in Hr |- *; [|exact Hr].
  destruct (n =? 0)%nat; simpl; [|exact Hr].
  eapply updates_write; [exact Hr | apply el_confidence].
Qed.

Lemma updates_evolves (a b : Context) : updates a b -> evolves a b.
Proof.
  induction 1 as [|a b c Hab IH Hbc]; [apply evolves_refl|].
  eapply evolves_write; eauto.
Qed.

Lemma evolves_trans (a b c : Context) : evolves a b -> evolves b c -> evolves a c.
Proof.
  intros Hab Hbc. induction Hbc as [|b c d Hbc IH Hcd|b c Hbc IH]; [exact Hab| |].
  - eapply evolves_write; [now apply IH | exact Hcd].
  - apply evolves_pass. now apply IH.
Qed.

(** The loop goes from context to context by elementary writes and
    increments of [iteration] alone. *)
Lemma swarm_loop_evolves (o : Oracle) :
  forall fuel s out,
    swarm_loop o fuel s = Some out -> evolves (ctx s) (ctx (store_of out)).
Proof.
  induction fuel as [|fuel IH]; intros s out; simpl; [discriminate|].
  assert (H1 : evolves (ctx s) (ctx (begin_pass s)))
    by (apply evolves_pass, evolves_refl).
  destruct (should_terminate (next_iteration (ctx s))) as [[|] r].
  - intros [= <-]. exact H1.
  - pose proof (run_round_updates o (begin_pass s)) as Hr.
    apply updates_evolves in Hr.
    destruct (run_round o (begin_pass s)) as [n s2|e s2]; simpl in Hr.
    + intros H. eapply evolves_trans; [exact H1|].
      eapply evolves_trans; [exact Hr | now apply IH].
    + intros [= <-]. eapply evolves_trans; eauto.
Qed.

Lemma reachable_evolves (task : string) (c : Context) :
  reachable task c -> evolves (create_shared_context task) c.
Proof.
  induction 1 as [|c Hc IH|c o name fn n Hc IH Hin|c Hc IH].
  - apply evolves_refl.
  - now apply evolves_pass.
  - eapply evolves_trans; [exact IH|]. apply updates_evolves.
    now apply (agent_updates o name fn {| ctx := c; calls := n |}).
  - eapply evolves_write; [exact IH | apply el_confidence].
Qed.

(** ** What the writes preserve *)

Lemma elementary_findings (c c' : Context) :
  elementary c c' ->
  exists l, findings c' = (findings c ++ l)%list /\ Forall tagged l.
Proof.
  intros [c1 f Hf|c1 t|c1 x|c1|c1 t Ht]; simpl.
  - exists [f]. split; [reflexivity | now repeat constructor].
  - exists []. split; [|constructor]. rewrite app_nil_r.
    unfold add_thread. now destruct (negb _ && negb _).
  - exists []. split; [now rewrite app_nil_r | constructor].
  - exists []. split; [now rewrite app_nil_r | constructor].
  - exists []. split; [now rewrite app_nil_r | constructor].
Qed.

Lemma evolves_findings (c c' : Context) :
  evolves c c' ->
  exists l, findings c' = (findings c ++ l)%list /\ Forall tagged l.
Proof.
  induction 1 as [c|c1 c2 c3 H12 IH H23|c1 c2 H12 IH].
  - exists []. split; [now rewrite app_nil_r | constructor].
  - destruct IH as (l & E & Hl).
    destruct (elementary_findings _ _ H23) as (l' & E' & Hl').
    exists (l ++ l')%list. split; [now rewrite E', E, app_assoc|].
    apply Forall_app. now split.
  - exact IH.
Qed.

Lemma elementary_fixed (c c' : Context) :
  elementary c c' ->
  task c' = task c /\ max_iterations c' = max_iterations c /\
  agents_last_round c' = agents_last_round c /\ iteration c' = iteration c.
Proof.
  intros [c1 f Hf|c1 t|c1 x|c1|c1 t Ht]; simpl; auto.
  unfold add_thread. destruct (negb _ && negb _); auto.
Qed.

Lemma evolves_fixed (c c' : Context) :
  evolves c c' ->
  task c' = task c /\ max_iterations c' = max_iterations c /\
  agents_last_round c' = agents_last_round c /\ iteration c <= iteration c'.
Proof.
  induction 1 as [c|c1 c2 c3 H12 IH H23|c1 c2 H12 IH].
  - split; [|split; [|split]]; solve [reflexivity | lia].
  - destruct IH as (A1 & A2 & A3 & A4).
    destruct (elementary_fixed _ _ H23) as (B1 & B2 & B3 & B4).
    split; [|split; [|split]]; solve [congruence | lia].
  - destruct IH as (A1 & A2 & A3 & A4). simpl.
    split; [|split; [|split]]; solve [assumption | lia].
Qed.

Lemma remove_first_other (t x : string) (l : list string) :
  x <> t -> In x l -> In x (remove_first t l).
Proof.
  intros Hne. induction l as [|y l IH]; simpl; [tauto|].
  destruct (String.eqb_spec t y) as [->|Hty]; simpl.
  - intros [H|H]; [congruence | exact H].
  - intros [H|H]; [now left | right; now apply IH].
Qed.

Lemma elementary_kept (c c' : Context) (x : string) :
  elementary c c' ->
  In x (open_threads c) \/ In x (investigated c) ->
  In x (open_threads c') \/ In x (investigated c').
Proof.
  intros [c1 f Hf|c1 t|c1 y|c1|c1 t Ht]; simpl; auto.
  - intros [H|H]; [left; now apply add_thread_keeps_open|].
    right. unfold add_thread. now destruct (negb _ && negb _).
  - intros [H|H].
    + destruct (String.eqb_spec x t) as [->|Hne].
      * right. apply in_app_iff. right. now left.
      * left. destruct (mem t (open_threads c1)); [|exact H].
        now apply remove_first_other.
    + right. apply in_app_iff. now left.
Qed.

Lemma evolves_kept (c c' : Context) (x : string) :
  evolves c c' ->
  In x (open_threads c) \/ In x (investigated c) ->
  In x (open_threads c') \/ In x (investigated c').
Proof.
  induction 1 as [c|c1 c2 c3 H12 IH H23|c1 c2 H12 IH]; intros Hx.
  - exact Hx.
  - eapply elementary_kept; [exact H23 | now apply IH].
  - now apply IH.
Qed.

(** No thread twice among the open ones, none twice among the investigated
    ones, none in both. *)
Definition threads_distinct (c : Context) : Prop :=
  threads_inv c /\ NoDup (investigated c).

Lemma elementary_distinct (c c' : Context) :
  elementary c c' -> threads_distinct c -> threads_distinct c'.
Proof.
  intros [c1 f Hf|c1 t|c1 y|c1|c1 t Ht] [Hinv Hnd]; try (split; assumption).
  - split; [now apply threads_inv_add_thread|].
    unfold add_thread. now destruct (negb _ && negb _).
  - split; [now apply threads_inv_mark_investigated|]. simpl.
    apply NoDup_app; [exact Hnd | repeat constructor; simpl; tauto|].
    intros a Ha [<-|[]]. destruct Hinv as [_ Hdis]. exact (Hdis _ Ha Ht).
Qed.

Lemma evolves_distinct (c c' : Context) :
  evolves c c' -> threads_distinct c -> threads_distinct c'.
Proof.
  induction 1 as [c|c1 c2 c3 H12 IH H23|c1 c2 H12 IH]; intros Hc.
  - exact Hc.
  - eapply elementary_distinct; [exact H23 | now apply IH].
  - now apply IH.
Qed.

(** ** Whose tag a finding carries *)

Section Invariant.

Variable P : Context -> Prop.

Lemma inv_keeps {A B : Type} (m : M A) (k : A -> M B) :
  keeps m ->
  (forall a, triple P (k a) (fun _ => P) P) ->
  triple P (bind m k) (fun _ => P) P.
Proof.
  intros Hm Hk. apply (triple_bind m k _ (fun _ => P)); [|exact Hk].
  now apply triple_keeps.
Qed.

Lemma inv_update {B : Type} (f : Context -> Context) (k : unit -> M B) :
  (forall c, P c -> P (f c)) ->
  (forall u, triple P (k u) (fun _ => P) P) ->
  triple P (bind (update f) k) (fun _ => P) P.
Proof.
  intros Hf Hk. apply (triple_bind _ k _ (fun _ => P)); [|exact Hk].
  now apply triple_update.
Qed.

Lemma inv_ret {A : Type} (a : A) : triple P (ret a) (fun _ => P) P.
Proof. now apply triple_ret. Qed.

Lemma inv_run {A : Type} (m : M A) (s : Store) :
  triple P m (fun _ => P) P -> P (ctx s) -> P (ctx (store_of (m s))).
Proof.
  intros Hm Hs. specialize (Hm s Hs).
  destruct (m s) as [a s'|e s']; exact Hm.
Qed.

End Invariant.

Lemma tagged_by_refl (tag : string) (c : Context) : tagged_by tag c c.
Proof. exists []. simpl. now rewrite app_nil_r. Qed.

Lemma tagged_by_same (tag : string) (c0 c c' : Context) :
  findings c' = findings c -> tagged_by tag c0 c -> tagged_by tag c0 c'.
Proof. intros E [l Hl]. exists l. now rewrite E. Qed.

Lemma tagged_by_findings (tag : string) (c0 : Context) (l : list string) :
  forall c, tagged_by tag c0 c ->
            tagged_by tag c0 (fold_left (fun c f => add_finding c (tag ^^ f)) l c).
Proof.
  induction l as [|f l IH]; intros c Hc; simpl; [exact Hc|].
  apply IH. destruct Hc as [l0 Hl0]. exists (l0 ++ [f])%list. simpl.
  now rewrite Hl0, map_app, app_assoc.
Qed.

Lemma tagged_by_threads (tag : string) (c0 : Context) (g : string -> string)
      (l : list string) :
  forall c, tagged_by tag c0 c ->
            tagged_by tag c0 (fold_left (fun c t => add_thread c (g t)) l c).
Proof.
  induction l as [|t l IH]; intros c Hc; simpl; [exact Hc|].
  apply IH. apply (tagged_by_same tag c0 c); [|exact Hc].
  unfold add_thread. now destruct (negb _ && negb _).
Qed.

(** Every finding the researcher appends carries the researcher's tag. *)
Lemma researcher_tags (o : Oracle) (s : Store) :
  tagged_by "[RESEARCHER] " (ctx s) (ctx (store_of (run_researcher_agent o s))).
Proof.
  unfold run_researcher_agent.
  rewrite (bind_ok read _ s s (ctx s) eq_refl).
  destruct (open_threads (ctx s)) as [|thread rest]; [apply tagged_by_refl|].
  apply inv_run; [|apply tagged_by_refl].
  apply inv_keeps; [apply keeps_search_text | intros result_text].
  apply inv_keeps; [apply keeps_external | intros result].
  apply inv_keeps; [apply keeps_get_strings | intros found].
  apply inv_update; [apply tagged_by_findings | intros _].
  apply inv_keeps; [apply keeps_get_strings | intros new_threads].
  apply inv_update; [apply (tagged_by_threads _ _ (fun t => t)) | intros _].
  apply inv_keeps; [apply keeps_get_number | intros boost].
  apply inv_update; [intros c; now apply tagged_by_same | intros _].
  apply inv_update; [intros c; now apply tagged_by_same | intros _].
  apply inv_keeps; [apply keeps_get_strings | intros found'].
  apply inv_ret.
Qed.

(** Every finding the analyst appends carries the analyst's tag. *)
Lemma analyst_tags (o : Oracle) (s : Store) :
  tagged_by "[ANALYST] Pattern: " (ctx s) (ctx (store_of (run_analyst_agent o s))).
Proof.
  unfold run_analyst_agent.
  rewrite (bind_ok read _ s s (ctx s) eq_refl).
  destruct (List.length (findings (ctx s)) <? 2)%nat; [apply tagged_by_refl|].
  apply inv_run; [|apply tagged_by_refl].
  apply inv_keeps; [apply keeps_external | intros result].
  apply inv_keeps; [apply keeps_get_strings | intros patterns].
  apply inv_update; [apply tagged_by_findings | intros _].
  apply inv_keeps; [apply keeps_get_strings | intros gaps].
  apply inv_update; [apply (tagged_by_threads _ _ (fun t => t)) | intros _].
  apply inv_keeps; [apply keeps_get_number | intros boost].
  apply inv_update; [intros c; now apply tagged_by_same | intros _].
  apply inv_keeps; [apply keeps_get_strings | intros patterns'].
  apply inv_ret.
Qed.

(** Every finding the critic appends carries the critic's tag. *)
Lemma critic_tags (o : Oracle) (s : Store) :
  tagged_by "[CRITIC] Challenge: " (ctx s) (ctx (store_of (run_critic_agent o s))).
Proof.
  unfold run_critic_agent.
  rewrite (bind_ok read _ s s (ctx s) eq_refl).
  destruct (List.length (findings (ctx s)) <? 3)%nat; [apply tagged_by_refl|].
  apply inv_run; [|apply tagged_by_refl].
  apply inv_keeps; [apply keeps_external | intros result].
  apply inv_keeps; [apply keeps_get_strings | intros challenges].
  apply inv_update; [apply tagged_by_findings | intros _].
  apply inv_keeps; [apply keeps_get_strings | intros claims].
  apply inv_update;
    [apply (tagged_by_threads _ _ (fun claim => "Verify: " ^^ claim)) | intros _].
  apply inv_keeps; [apply keeps_get_number | intros adjustment].
  apply inv_update; [intros c; now apply tagged_by_same | intros _].
  apply inv_update; [intros c; now apply tagged_by_same | intros _].
  apply inv_keeps; [apply keeps_get_strings | intros challenges'].
  apply inv_ret.
Qed.

(** X1. Whatever the services answer and however the loop ends, the findings
    it started with are a prefix of the findings it ends with, and every
    finding appended carries the tag of an agent: what a call of the
    researcher appends starts with "[RESEARCHER] ", what a call of the analyst
    appends with "[ANALYST] Pattern: ", what a call of the critic appends
    with "[CRITIC] Challenge: ", whether the call returns or raises. *)
Theorem findings_only_grow (o : Oracle) (fuel : nat) (s : Store) (out : outcome Reason) :
  swarm_loop o fuel s = Some out ->
  (exists l,
     findings (ctx (store_of out)) = (findings (ctx s) ++ l)%list /\ Forall tagged l) /\
  (forall s1, exists l,
     findings (ctx (store_of (run_researcher_agent o s1)))
     = (findings (ctx s1) ++ map (String.append "[RESEARCHER] ") l)%list) /\
  (forall s1, exists l,
     findings (ctx (store_of (run_analyst_agent o s1)))
     = (findings (ctx s1) ++ map (String.append "[ANALYST] Pattern: ") l)%list) /\
  (forall s1, exists l,
     findings (ctx (store_of (run_critic_agent o s1)))
     = (findings (ctx s1) ++ map (String.append "[CRITIC] Challenge: ") l)%list).
Proof.
  intros H. split; [|split; [|split]].
  - apply evolves_findings. now apply (swarm_loop_evolves o fuel).
  - exact (researcher_tags o).
  - exact (analyst_tags o).
  - exact (critic_tags o).
Qed.

Lemma findings_only_grow_witness :
  (exists l,
     findings (ctx (store_of Runs.search_down_end))
     = (findings (ctx (Runs.fresh "topic")) ++ l)%list /\
     Forall tagged l) /\
  (forall s1, exists l,
     findings (ctx (store_of (run_researcher_agent Scenarios.search_down s1)))
     = (findings (ctx s1) ++ map (String.append "[RESEARCHER] ") l)%list) /\
  (forall s1, exists l,
     findings (ctx (store_of (run_analyst_agent Scenarios.search_down s1)))
     = (findings (ctx s1) ++ map (String.append "[ANALYST] Pattern: ") l)%list) /\
  (forall s1, exists l,
     findings (ctx (store_of (run_critic_agent Scenarios.search_down s1)))
     = (findings (ctx s1) ++ map (String.append "[CRITIC] Challenge: ") l)%list).
Proof.
  apply (findings_only_grow Scenarios.search_down 10 (Runs.fresh "topic")
           Runs.search_down_end).
  reflexivity.
Defined.

(** X2. In the dict a run returns, every entry of [findings] starts with
    "[RESEARCHER] ", "[ANALYST] Pattern: " or "[CRITIC] Challenge: ", and
    [total_findings] is the number of these entries. *)
Theorem report_findings_tagged (o : Oracle) (task : string) (rep : list (string * value)) :
  returned (run_swarm o task) = Some rep ->
  exists fs,
    field "findings" rep = Some (VList fs) /\
    Forall tagged fs /\
    field "total_findings" rep = Some (VInt (Z.of_nat (List.length fs))).
Proof.
  unfold run_swarm, run_swarm_from.
  set (s0 := {| ctx := create_shared_context task; calls := 0 |}).
  destruct (swarm_loop o (passes (ctx s0)) s0) as [[r s1|e s1]|] eqn:Hloop;
    simpl; try discriminate.
  apply swarm_loop_evolves in Hloop. apply evolves_findings in Hloop.
  destruct Hloop as (l & E & Hl). simpl in E.
  destruct (synthesize_outcome o s1) as [[a Ha]|[e He]]; rewrite ?Ha, ?He;
    [|discriminate].
  intros [= <-]. exists (findings (ctx s1)). repeat split.
  now rewrite E.
Qed.

Lemma report_findings_tagged_witness :
  exists fs,
    field "findings" Runs.search_down_report = Some (VList fs) /\
    Forall tagged fs /\
    field "total_findings" Runs.search_down_report
    = Some (VInt (Z.of_nat (List.length fs))).
Proof.
  apply (report_findings_tagged Scenarios.search_down "topic"). reflexivity.
Defined.

(** X3. In every context a run of [run_swarm] can be observed in, no thread
    occurs twice in [open_threads] and none occurs twice in [investigated]:
    a thread is investigated at most once. *)
Theorem threads_investigated_once (task : string) (c : Context) :
  reachable task c -> NoDup (open_threads c) /\ NoDup (investigated c).
Proof.
  intros H. apply reachable_evolves in H.
  destruct (evolves_distinct _ _ H) as [[Hopen _] Hinv]; [|now split].
  split; [split|]; simpl.
  - repeat constructor. simpl. tauto.
  - intros x [].
  - constructor.
Qed.

Lemma threads_investigated_once_witness :
  NoDup (open_threads (ctx (store_of (run_researcher_agent Scenarios.steady
                                        (Runs.fresh "topic"))))) /\
  NoDup (investigated (ctx (store_of (run_researcher_agent Scenarios.steady
                                        (Runs.fresh "topic"))))).
Proof.
  apply (threads_investigated_once "topic").
  apply (reach_agent "topic" _ Scenarios.steady "Researcher").
  - apply reach_created.
  - left. reflexivity.
Defined.

(** X4. The loop never drops a thread: a thread that is open or investigated
    when the loop starts is open or investigated when the loop ends. *)
Theorem threads_never_dropped (o : Oracle) (fuel : nat) (s : Store)
        (out : outcome Reason) (x : string) :
  swarm_loop o fuel s = Some out ->
  In x (open_threads (ctx s)) \/ In x (investigated (ctx s)) ->
  In x (open_threads (ctx (store_of out))) \/ In x (investigated (ctx (store_of out))).
Proof.
  intros H. apply evolves_kept. now apply (swarm_loop_evolves o fuel).
Qed.

Lemma threads_never_dropped_witness :
  In "topic" (open_threads (ctx (store_of Runs.search_down_end))) \/
  In "topic" (investigated (ctx (store_of Runs.search_down_end))).
Proof.
  apply (threads_never_dropped Scenarios.search_down 10 (Runs.fresh "topic")
           Runs.search_down_end "topic").
  - reflexivity.
  - left. left. reflexivity.
Defined.

(** X5. The loop writes to [findings], [open_threads], [investigated],
    [confidence] and [iteration] only: [task], [max_iterations] and
    [agents_last_round] end as they started, and [iteration] never
    decreases. *)
Theorem loop_fixed_fields (o : Oracle) (fuel : nat) (s : Store) (out : outcome Reason) :
  swarm_loop o fuel s = Some out ->
  task (ctx (store_of out)) = task (ctx s) /\
  max_iterations (ctx (store_of out)) = max_iterations (ctx s) /\
  agents_last_round (ctx (store_of out)) = agents_last_round (ctx s) /\
  iteration (ctx s) <= iteration (ctx (store_of out)).
Proof.
  intros H. apply evolves_fixed. now apply (swarm_loop_evolves o fuel).
Qed.

Lemma loop_fixed_fields_witness :
  task (ctx (store_of Runs.search_down_end)) = task (ctx (Runs.fresh "topic")) /\
  max_iterations (ctx (store_of Runs.search_down_end))
  = max_iterations (ctx (Runs.fresh "topic")) /\
  agents_last_round (ctx (store_of Runs.search_down_end))
  = agents_last_round (ctx (Runs.fresh "topic")) /\
  iteration (ctx (Runs.fresh "topic"))
  <= iteration (ctx (store_of Runs.search_down_end)).
Proof.
  apply (loop_fixed_fields Scenarios.search_down 10 (Runs.fresh "topic")
           Runs.search_down_end).
  reflexivity.
Defined.

(** X6. Offering a thread is idempotent, and afterwards the thread is open
    or investigated. *)
Theorem add_thread_idempotent (c : Context) (t : string) :
  add_thread (add_thread c t) t = add_thread c t /\
  (In t (open_threads (add_thread c t)) \/ In t (investigated (add_thread c t))).
Proof.
  unfold add_thread.
  destruct (mem t (investigated c)) eqn:Hi; simpl.
  - rewrite Hi. simpl. split; [reflexivity|]. right. now apply mem_In.
  - destruct (mem t (open_threads c)) eqn:Ho; simpl.
    + rewrite Hi, Ho. simpl. split; [reflexivity|]. left. now apply mem_In.
    + rewrite Hi. simpl.
      assert (Hin : In t (open_threads c ++ [t])%list)
        by (apply in_app_iff; right; now left).
      apply mem_In in Hin as Hmem. rewrite Hmem. simpl. now split; [|left].
Qed.

(** ** External calls *)

(** [m] makes at most [n] external calls. *)
Definition spends {A : Type} (m : M A) (n : nat) : Prop :=
  forall s, (calls s <= calls (store_of (m s)) <= calls s + n)%nat.

Lemma spends_keeps_calls {A : Type} (m : M A) :
  (forall s, calls (store_of (m s)) = calls s) -> spends m 0.
Proof. intros H s. rewrite H. lia. Qed.

Lemma spends_ret {A : Type} (a : A) : spends (ret a) 0.
Proof. now apply spends_keeps_calls. Qed.

Lemma spends_read : spends read 0.
Proof. now apply spends_keeps_calls. Qed.

Lemma spends_update (f : Context -> Context) : spends (update f) 0.
Proof. now apply spends_keeps_calls. Qed.

Lemma spends_get_strings (d : dict) (key : string) : spends (get_strings d key) 0.
Proof.
  apply spends_keeps_calls. intros s. unfold get_strings.
  now destruct (get d key) as [[x|l]|].
Qed.

Lemma spends_get_number (d : dict) (key : string) (x : float) :
  spends (get_number d key x) 0.
Proof.
  apply spends_keeps_calls. intros s. unfold get_number.
  now destruct (get d key) as [[y|l]|].
Qed.

Lemma spends_external {A : Type} (f : nat -> exn + A) : spends (external f) 1.
Proof. intros s. unfold external. destruct (f (calls s)); simpl; lia. Qed.

Lemma spends_search_text (o : Oracle) (thread : string) :
  spends (search_text o thread) 1.
Proof.
  intros s. destruct (search_text_caught o thread s) as (txt & H & _).
  rewrite H. simpl. lia.
Qed.

Lemma spends_bind {A B : Type} (m : M A) (k : A -> M B) (n p : nat) :
  spends m n -> (forall a, spends (k a) p) -> spends (bind m k) (n + p).
Proof.
  intros Hm Hk s. unfold bind. specialize (Hm s).
  destruct (m s) as [a s'|e s']; simpl in Hm |- *; [|lia].
  specialize (Hk a s'). lia.
Qed.

Lemma spends_more {A : Type} (m : M A) (n p : nat) :
  spends m n -> (n <= p)%nat -> spends m p.
Proof. intros Hm Hle s. specialize (Hm s). lia. Qed.

(** Adds up the calls of a sequence of steps. *)
Ltac count_calls :=
  repeat first
    [ apply spends_ret | apply spends_update | apply spends_get_strings
    | apply spends_get_number | apply spends_external | apply spends_search_text
    | eapply spends_bind; [ | intro ] ].

Lemma spends_researcher (o : Oracle) : spends (run_researcher_agent o) 2.
Proof.
  unfold run_researcher_agent.
  apply (spends_bind _ _ 0 2); [apply spends_read | intros c].
  destruct (open_threads c) as [|thread rest].
  - eapply spends_more; [apply spends_ret | lia].
  - eapply spends_more; [count_calls | simpl; lia].
Qed.

Lemma spends_analyst (o : Oracle) : spends (run_analyst_agent o) 1.
Proof.
  unfold run_analyst_agent.
  apply (spends_bind _ _ 0 1); [apply spends_read | intros c].
  destruct (List.length (findings c) <? 2)%nat.
  - eapply spends_more; [apply spends_ret | lia].
  - eapply spends_more; [count_calls | simpl; lia].
Qed.

Lemma spends_critic (o : Oracle) : spends (run_critic_agent o) 1.
Proof.
  unfold run_critic_agent.
  apply (spends_bind _ _ 0 1); [apply spends_read | intros c].
  destruct (List.length (findings c) <? 3)%nat.
  - eapply spends_more; [apply spends_ret | lia].
  - eapply spends_more; [count_calls | simpl; lia].
Qed.

Lemma spends_round (o : Oracle) : spends (run_round o) 4.
Proof.
  unfold run_round, agents. simpl run_agents.
  eapply spends_more.
  - eapply spends_bind; [|intros n; eapply spends_bind; [|intro; apply spends_ret]].
    + eapply spends_bind; [apply spends_researcher | intro].
      eapply spends_bind; [apply spends_analyst | intro].
      eapply spends_bind; [apply spends_critic | intro].
      apply spends_ret.
    + destruct (n =? 0)%nat; [apply spends_update | apply spends_ret].
  - simpl. lia.
Qed.

(** The loop makes at most four calls a round, and runs at most
    [max_iterations - iteration - 1] rounds. *)
Lemma swarm_loop_spends (o : Oracle) :
  forall fuel s out,
    swarm_loop o fuel s = Some out ->
    (calls (store_of out)
     <= calls s + 4 * Z.to_nat (max_iterations (ctx s) - iteration (ctx s) - 1))%nat.
Proof.
  induction fuel as [|fuel IH]; intros s out; simpl; [discriminate|].
  destruct (should_terminate (next_iteration (ctx s))) as [[|] r] eqn:Hst.
  - intros [= <-]. simpl. lia.
  - apply should_terminate_continue in Hst. simpl in Hst.
    pose proof (spends_round o (begin_pass s)) as Hcalls.
    pose proof (run_round_same_bounds o (begin_pass s)) as [Hi Hm].
    destruct (run_round o (begin_pass s)) as [n s2|e s2];
      simpl in Hcalls, Hi, Hm.
    + intros H. apply IH in H. rewrite Hi, Hm in H. lia.
    + intros [= <-]. simpl. lia.
Qed.

(** X7. A run of [run_swarm] makes at most 37 calls to the external
    services, however it ends: at most four in each of at most nine rounds
    (two by the researcher, one by the analyst, one by the critic), and one
    by the synthesizer. *)
Theorem run_swarm_call_budget (o : Oracle) (task : string)
        (out : outcome (list (string * value))) :
  run_swarm o task = Some out -> (calls (store_of out) <= 37)%nat.
Proof.
  unfold run_swarm, run_swarm_from.
  destruct (swarm_loop o _ _) as [[r s1|e s1]|] eqn:Hloop; try discriminate.
  - apply swarm_loop_spends in Hloop. simpl in Hloop.
    intros [= <-].
    destruct (synthesize_outcome o s1) as [[a ->]|[e ->]]; simpl; lia.
  - apply swarm_loop_spends in Hloop. simpl in Hloop.
    intros [= <-]. simpl. lia.
Qed.

Lemma run_swarm_call_budget_witness :
  (calls (store_of (Ok Runs.search_down_report
                       {| ctx := ctx (store_of Runs.search_down_end); calls := 3 |}))
   <= 37)%nat.
Proof.
  apply (run_swarm_call_budget Scenarios.search_down "topic"). reflexivity.
Defined.

(** ** Why the loop stopped *)

Lemma swarm_loop_reason (o : Oracle) :
  forall fuel s r s',
    swarm_loop o fuel s = Some (Ok r s') -> should_terminate (ctx s') = (true, r).
Proof.
  induction fuel as [|fuel IH]; intros s r s'; simpl; [discriminate|].
  destruct (should_terminate (next_iteration (ctx s))) as [[|] r0] eqn:Hst.
  - intros [= <- <-]. exact Hst.
  - destruct (run_round o (begin_pass s)) as [n s2|e s2]; [apply IH | discriminate].
Qed.

(** X8. When the loop returns, its reason is the one [should_terminate]
    gives on the final context, and it is one of three: the bound is reached;
    or the bound is not reached and the confidence is at least 0.85; or
    neither, and then no thread is open and there are more than 3 findings. *)
Theorem loop_reason_sound (o : Oracle) (fuel : nat) (s s' : Store) (r : Reason) :
  swarm_loop o fuel s = Some (Ok r s') ->
  should_terminate (ctx s') = (true, r) /\
  ((r = MaxIterations /\ max_iterations (ctx s') <= iteration (ctx s')) \/
   (r = ConfidenceThreshold (confidence (ctx s')) /\
    iteration (ctx s') < max_iterations (ctx s') /\
    (0.85 <=? confidence (ctx s'))%float = true) \/
   (r = AllThreads /\
    iteration (ctx s') < max_iterations (ctx s') /\
    (0.85 <=? confidence (ctx s'))%float = false /\
    open_threads (ctx s') = [] /\
    (3 < List.length (findings (ctx s')))%nat)).
Proof.
  intros H. apply swarm_loop_reason in H. split; [exact H|].
  revert H. unfold should_terminate.
  destruct (Z.geb_spec (iteration (ctx s')) (max_iterations (ctx s'))) as [Hge|Hlt].
  - intros [= <-]. left. now split.
  - destruct (0.85 <=? confidence (ctx s'))%float eqn:Hconf.
    + intros [= <-]. right. left. now repeat split.
    + destruct (open_threads (ctx s')) as [|t rest]; simpl; [|discriminate].
      destruct (Nat.ltb_spec 3 (List.length (findings (ctx s')))); [|discriminate].
      intros [= <-]. right. right. now repeat split.
Qed.

Lemma loop_reason_sound_witness :
  should_terminate (mkContext "topic" [] ["c"] ["topic"; "a"; "b"] 4 10
                      (0 + 0.3 + 0.3 + 0.3)%float [])
  = (true, ConfidenceThreshold (0 + 0.3 + 0.3 + 0.3)%float) /\
  ((ConfidenceThreshold (0 + 0.3 + 0.3 + 0.3)%float = MaxIterations /\ 10 <= 4) \/
   (ConfidenceThreshold (0 + 0.3 + 0.3 + 0.3)%float
    = ConfidenceThreshold (0 + 0.3 + 0.3 + 0.3)%float /\
    4 < 10 /\
    (0.85 <=? 0 + 0.3 + 0.3 + 0.3)%float = true) \/
   (ConfidenceThreshold (0 + 0.3 + 0.3 + 0.3)%float = AllThreads /\
    4 < 10 /\
    (0.85 <=? 0 + 0.3 + 0.3 + 0.3)%float = false /\
    ["c"] = [] /\
    (3 < List.length (@nil string))%nat)).
Proof.
  apply (loop_reason_sound Scenarios.steady 10 (Runs.fresh "topic")
           {| ctx := mkContext "topic" [] ["c"] ["topic"; "a"; "b"] 4 10
                       (0 + 0.3 + 0.3 + 0.3)%float [];
              calls := 6 |}).
  reflexivity.
Defined.

(** ** Agents with nothing to do, and answers with nothing in them *)

(** X9. An agent that reports no contribution has made no external call and
    has left the shared context as it was; it does so only when it had
    nothing to work on: no open thread for the researcher, fewer than 2
    findings for the analyst, fewer than 3 for the critic. *)
Theorem no_contribution_no_effect (o : Oracle) (s s' : Store) :
  (run_researcher_agent o s = Ok NoContribution s' ->
   s' = s /\ open_threads (ctx s) = []) /\
  (run_analyst_agent o s = Ok NoContribution s' ->
   s' = s /\ (List.length (findings (ctx s)) < 2)%nat) /\
  (run_critic_agent o s = Ok NoContribution s' ->
   s' = s /\ (List.length (findings (ctx s)) < 3)%nat).
Proof.
  split; [|split].
  - intros H. destruct (open_threads (ctx s)) as [|thread rest] eqn:Hopen.
    + rewrite (researcher_idle o s Hopen) in H. injection H as <-. now split.
    + apply researcher_contributes in H; [discriminate|].
      rewrite Hopen. discriminate.
  - unfold run_analyst_agent. rewrite (bind_ok read _ s s (ctx s) eq_refl).
    destruct (Nat.ltb_spec (List.length (findings (ctx s))) 2) as [Hlt|Hge].
    + intros [= <-]. now split.
    + intros H. do 8 (apply bind_inv in H; destruct H as (? & ? & _ & H)).
      discriminate.
  - unfold run_critic_agent. rewrite (bind_ok read _ s s (ctx s) eq_refl).
    destruct (Nat.ltb_spec (List.length (findings (ctx s))) 3) as [Hlt|Hge].
    + intros [= <-]. now split.
    + intros H. do 9 (apply bind_inv in H; destruct H as (? & ? & _ & H)).
      discriminate.
Qed.

(** X10. When the model answers the researcher with an empty JSON object,
    every key takes its default: the researcher contributes no finding and no
    thread, adds 0.05 to the confidence, and moves the thread it took to
    [investigated], after two external calls. *)
Theorem researcher_defaults (o : Oracle) (s : Store) (thread : string) (rest : list string) :
  open_threads (ctx s) = thread :: rest ->
  (forall prompt, chat_json o (S (calls s)) Researcher prompt = inr []) ->
  run_researcher_agent o s
  = Ok (Contribution "findings" [])
       {| ctx := mark_investigated thread (add_confidence 0.05%float (ctx s));
          calls := S (S (calls s)) |}.
Proof.
  intros Hopen Hchat. unfold run_researcher_agent.
  rewrite (bind_ok read _ s s (ctx s) eq_refl), Hopen.
  destruct (search_text_caught o thread s) as (txt & Htxt & _).
  rewrite (bind_ok _ _ _ _ _ Htxt).
  erewrite bind_ok; [|unfold external; simpl; rewrite Hchat; reflexivity].
  reflexivity.
Qed.

Lemma researcher_defaults_witness :
  run_researcher_agent Scenarios.quiet (Runs.fresh "topic")
  = Ok (Contribution "findings" [])
       {| ctx := mark_investigated "topic"
                   (add_confidence 0.05%float (ctx (Runs.fresh "topic")));
          calls := S (S (calls (Runs.fresh "topic"))) |}.
Proof.
  apply (researcher_defaults Scenarios.quiet (Runs.fresh "topic") "topic" []).
  - reflexivity.
  - intros prompt. reflexivity.
Defined.

(** X11. When the model answers them with an empty JSON object, the analyst
    adds 0.05 to the confidence and the critic adds 0 and clamps; neither
    adds a finding or a thread. *)
Theorem analyst_critic_defaults (o : Oracle) (s : Store) :
  ((2 <= List.length (findings (ctx s)))%nat ->
   (forall prompt, chat_json o (calls s) Analyst prompt = inr []) ->
   run_analyst_agent o s
   = Ok (Contribution "patterns" [])
        {| ctx := add_confidence 0.05%float (ctx s); calls := S (calls s) |}) /\
  ((3 <= List.length (findings (ctx s)))%nat ->
   (forall prompt, chat_json o (calls s) Critic prompt = inr []) ->
   run_critic_agent o s
   = Ok (Contribution "challenges" [])
        {| ctx := clamp_confidence (add_confidence 0%float (ctx s));
           calls := S (calls s) |}).
Proof.
  split; intros Hlen Hchat.
  - unfold run_analyst_agent. rewrite (bind_ok read _ s s (ctx s) eq_refl).
    destruct (Nat.ltb_spec (List.length (findings (ctx s))) 2); [lia|].
    erewrite bind_ok; [|unfold external; simpl; rewrite Hchat; reflexivity].
    reflexivity.
  - unfold run_critic_agent. rewrite (bind_ok read _ s s (ctx s) eq_refl).
    destruct (Nat.ltb_spec (List.length (findings (ctx s))) 3); [lia|].
    erewrite bind_ok; [|unfold external; simpl; rewrite Hchat; reflexivity].
    reflexivity.
Qed.

End SwarmAgentExtras.

(** * Further properties of 06_swarm.py *)

Module LangGraphSwarmExtras.

Import LangGraphSwarm LangGraphRuns LangGraphSwarmTheory.

(** ** The verdict of the critic *)

Lemma append_assoc (a b c : string) : (a ^^ b) ^^ c = a ^^ (b ^^ c).
Proof. induction a as [|x a IH]; simpl; [reflexivity | now rewrite IH]. Qed.

Lemma is_space_upper_char (c : ascii) : is_space (upper_char c) = is_space c.
Proof. destruct c as [[] [] [] [] [] [] [] []]; reflexivity. Qed.

Lemma solid_upper (s : string) : solid (upper s) = solid s.
Proof.
  induction s as [|c s IH]; simpl; [reflexivity|].
  now rewrite is_space_upper_char, IH.
Qed.

Lemma upper_app (a b : string) : upper (a ^^ b) = upper a ^^ upper b.
Proof. induction a as [|x a IH]; simpl; [reflexivity | now rewrite IH]. Qed.

Lemma lstrip_blank (ws s : string) : blank ws = true -> lstrip (ws ^^ s) = lstrip s.
Proof.
  induction ws as [|c ws IH]; simpl; [reflexivity|].
  intros H. apply andb_true_iff in H as [Hc Hws]. rewrite Hc. now apply IH.
Qed.

Lemma lstrip_split (s : string) : exists ws, blank ws = true /\ s = ws ^^ lstrip s.
Proof.
  induction s as [|c s IH]; simpl.
  - now exists EmptyString.
  - destruct (is_space c) eqn:Hc.
    + destruct IH as (ws & Hws & E). exists (String c ws). simpl.
      rewrite Hc, Hws. split; [reflexivity | now rewrite <- E].
    + now exists EmptyString.
Qed.

Lemma rstrip_split (s : string) : exists tail, s = rstrip s ^^ tail.
Proof.
  induction s as [|c s IH]; simpl.
  - now exists EmptyString.
  - destruct IH as (tail & E). destruct (rstrip s) as [|d r] eqn:Hr.
    + destruct (is_space c).
      * now exists (String c s).
      * exists s. reflexivity.
    + exists tail. simpl in E |- *. now rewrite <- E.
Qed.

Lemma rstrip_solid (w rest : string) :
  solid w = true -> rstrip (w ^^ rest) = w ^^ rstrip rest.
Proof.
  induction w as [|c w IH]; simpl; [reflexivity|].
  intros H. apply andb_true_iff in H as [Hc Hw].
  rewrite (IH Hw). destruct (w ^^ rstrip rest); [|reflexivity].
  now destruct (is_space c).
Qed.

Lemma prefix_app (p x : string) : String.prefix p (p ^^ x) = true.
Proof.
  induction p as [|a p IH]; simpl; [now destruct x|].
  destruct (ascii_dec a a); [exact IH | congruence].
Qed.

Lemma prefix_upper_split (p : string) :
  forall x, String.prefix p (upper x) = true ->
            exists w r, x = w ^^ r /\ upper w = p.
Proof.
  induction p as [|a p IH]; intros x H.
  - now exists EmptyString, x.
  - destruct x as [|c x]; simpl in H; [discriminate|].
    destruct (ascii_dec a (upper_char c)) as [->|]; [|discriminate].
    destruct (IH x H) as (w & r & -> & <-).
    now exists (String c w), r.
Qed.

(** The test [feedback.strip().upper().startswith("APPROVED")] succeeds
    exactly on the texts that, after leading whitespace, start with the
    letters of APPROVED in upper or lower case. *)
Lemma approved_iff (fb : string) :
  startswith (upper (strip fb)) "APPROVED" = true <->
  exists ws w rest,
    blank ws = true /\ upper w = "APPROVED" /\ fb = ws ^^ w ^^ rest.
Proof.
  unfold startswith, strip. split.
  - intros H.
    destruct (lstrip_split fb) as (ws & Hws & Efb).
    destruct (rstrip_split (lstrip fb)) as (tail & Etail).
    destruct (prefix_upper_split _ _ H) as (w & r & Er & Hw).
    exists ws, w, (r ^^ tail). repeat split; try assumption.
    rewrite Efb at 1. rewrite Etail at 1. now rewrite Er, append_assoc.
  - intros (ws & w & rest & Hws & Hw & ->).
    assert (Hsolid : solid w = true) by now rewrite <- solid_upper, Hw.
    rewrite (lstrip_blank _ _ Hws).
    destruct w as [|c w]; [discriminate|].
    simpl in Hsolid. apply andb_true_iff in Hsolid as [Hc Hsolid].
    apply negb_true_iff in Hc.
    change (String c w ^^ rest) with (String c (w ^^ rest)).
    simpl lstrip. rewrite Hc.
    change (String c (w ^^ rest)) with (String c w ^^ rest).
    rewrite rstrip_solid by (simpl; now rewrite Hc, Hsolid).
    rewrite upper_app, Hw. apply prefix_app.
Qed.

(** X12. The critic stores the reply of its call to the model as
    [feedback], unchanged, and leaves [problem], [solution] and [iteration]
    as they are; on an ASCII reply it sets [is_complete] exactly when the
    reply, leading whitespace apart, starts with the letters of APPROVED in
    upper or lower case. *)
Theorem critic_verdict (llm : Llm) (n : nat) (st : SwarmState) (u : list Assignment) :
  critic_agent llm n st = inr u ->
  exists prompt reply,
    llm n critic prompt = inr reply /\
    feedback (merge st u) = reply /\
    problem (merge st u) = problem st /\
    solution (merge st u) = solution st /\
    iteration (merge st u) = iteration st /\
    (ascii_text reply = true ->
     (is_complete (merge st u) = true <->
      exists ws w rest,
        blank ws = true /\ upper w = "APPROVED" /\ reply = ws ^^ w ^^ rest)).
Proof.
  unfold critic_agent. cbv zeta.
  destruct (llm n critic _) as [e|fb] eqn:Hllm; [discriminate|].
  intros [= <-].
  match type of Hllm with llm n critic ?p = _ => exists p, fb end.
  split; [exact Hllm|]. simpl.
  do 4 (split; [reflexivity|]).
  intros _. apply approved_iff.
Qed.

Lemma critic_verdict_witness :
  exists prompt reply,
    Scenarios.approves_second 3%nat critic prompt = inr reply /\
    feedback
      (merge (initial_state "p")
         [ set_feedback "  approved: good enough";
           set_is_complete true;
           set_history ["ITERATION 0 FEEDBACK:" ^^ nl ^^ "  approved: good enough"] ])
    = reply /\
    problem
      (merge (initial_state "p")
         [ set_feedback "  approved: good enough";
           set_is_complete true;
           set_history ["ITERATION 0 FEEDBACK:" ^^ nl ^^ "  approved: good enough"] ])
    = problem (initial_state "p") /\
    solution
      (merge (initial_state "p")
         [ set_feedback "  approved: good enough";
           set_is_complete true;
           set_history ["ITERATION 0 FEEDBACK:" ^^ nl ^^ "  approved: good enough"] ])
    = solution (initial_state "p") /\
    iteration
      (merge (initial_state "p")
         [ set_feedback "  approved: good enough";
           set_is_complete true;
           set_history ["ITERATION 0 FEEDBACK:" ^^ nl ^^ "  approved: good enough"] ])
    = iteration (initial_state "p") /\
    (ascii_text reply = true ->
     (is_complete
        (merge (initial_state "p")
           [ set_feedback "  approved: good enough";
             set_is_complete true;
             set_history ["ITERATION 0 FEEDBACK:" ^^ nl ^^ "  approved: good enough"] ])
      = true <->
      exists ws w rest,
        blank ws = true /\ upper w = "APPROVED" /\ reply = ws ^^ w ^^ rest)).
Proof.
  apply (critic_verdict Scenarios.approves_second 3 (initial_state "p")).
  reflexivity.
Defined.

(** A text the prompt of the critic asks for when work is left is never an
    approval. *)
Example needs_work_is_not_approved :
  startswith (upper (strip "  Needs work: add an SLA")) "APPROVED" = false.
Proof. reflexivity. Qed.

(** ** What a turn of the cycle keeps *)

Lemma cycle_accounts (llm : Llm) (n : nat) (st st' : SwarmState) :
  cycle llm n st = inr st' ->
  problem st' = problem st /\
  exists a b, history st' = (history st ++ [a; b])%list.
Proof.
  unfold cycle, solver_agent, critic_agent. cbv zeta.
  destruct (llm n solver _) as [e|sol]; [discriminate|].
  destruct (llm (S n) critic _) as [e|fb]; [discriminate|].
  intros [= <-]. simpl. split; [reflexivity|].
  rewrite <- app_assoc. simpl. eauto.
Qed.

Lemma after_turns_accounts (llm : Llm) :
  forall k n st st',
    after_turns llm k n st = inr st' ->
    problem st' = problem st /\
    exists l, history st' = (history st ++ l)%list /\ List.length l = (2 * k)%nat.
Proof.
  induction k as [|k IH]; intros n st st'; simpl after_turns.
  - intros [= <-]. split; [reflexivity|]. exists []. now rewrite app_nil_r.
  - destruct (cycle llm n st) as [e|st1] eqn:Hc; [discriminate|].
    intros H. apply IH in H as (Hp & l & Hl & Hlen).
    apply cycle_accounts in Hc as (Hp1 & a & b & Hh).
    split; [congruence|].
    exists (a :: b :: l). split; [|simpl; lia].
    rewrite Hl, Hh, <- app_assoc. reflexivity.
Qed.

(** What the graph returns is the state after some number of whole turns. *)
Lemma invoke_after_turns (llm : Llm) :
  forall fuel n st final,
    invoke llm fuel n st = Some (inr final) ->
    exists k, (1 <= k)%nat /\ after_turns llm k n st = inr final.
Proof.
  induction fuel as [|fuel IH]; intros n st final; simpl; [discriminate|].
  destruct (cycle llm n st) as [e|st1] eqn:Hc; [discriminate|].
  destruct (should_continue st1).
  - intros H. apply IH in H as (k & Hk & Hafter).
    exists (S k). split; [lia|]. simpl. now rewrite Hc.
  - intros [= <-]. exists 1%nat. split; [lia|]. simpl. now rewrite Hc.
Qed.

(** X13. In the state the graph returns, the problem is the one handed
    over, the history handed over is a prefix of the history, and each turn
    has appended exactly two entries (the solution and the feedback):
    the history has grown by twice the increase of [iteration]. *)
Theorem history_accounts (llm : Llm) (fuel n : nat) (st final : SwarmState) :
  invoke llm fuel n st = Some (inr final) ->
  problem final = problem st /\
  exists l,
    history final = (history st ++ l)%list /\
    Z.of_nat (List.length l) = 2 * (iteration final - iteration st).
Proof.
  intros H. apply invoke_after_turns in H as (k & Hk & Hafter).
  pose proof (after_turns_iteration llm k n st final Hafter) as Hit.
  apply after_turns_accounts in Hafter as (Hp & l & Hl & Hlen).
  split; [exact Hp|]. exists l. split; [exact Hl | lia].
Qed.

Lemma history_accounts_witness :
  problem approved_second_turn = problem (initial_state "p") /\
  exists l,
    history approved_second_turn = (history (initial_state "p") ++ l)%list /\
    Z.of_nat (List.length l)
    = 2 * (iteration approved_second_turn - iteration (initial_state "p")).
Proof.
  apply (history_accounts Scenarios.approves_second 3 0 (initial_state "p")).
  reflexivity.
Defined.

(** ** The cycle whatever the model does *)

Lemma cycle_result_iteration (llm : Llm) (n : nat) (st : SwarmState) :
  match cycle llm n st with
  | inr st' => iteration st' = iteration st + 1
  | inl e => exists n' node prompt, llm n' node prompt = inl e
  end.
Proof.
  unfold cycle, solver_agent, critic_agent. cbv zeta.
  destruct (llm n solver _) as [e|sol] eqn:Hs; [eauto|].
  destruct (llm (S n) critic _) as [e|fb] eqn:Hc; [eauto|].
  reflexivity.
Qed.

Lemma invoke_total (llm : Llm) :
  forall fuel n st,
    (1 <= fuel)%nat ->
    MAX_ITERATIONS - iteration st <= Z.of_nat fuel ->
    exists r,
      invoke llm fuel n st = Some r /\
      match r with
      | inr final =>
          iteration st + 1 <= iteration final
          <= Z.max MAX_ITERATIONS (iteration st + 1) /\
          stops final
      | inl e => exists n' node prompt, llm n' node prompt = inl e
      end.
Proof.
  induction fuel as [|fuel IH]; intros n st Hpos Hfuel; [lia|].
  simpl invoke. pose proof (cycle_result_iteration llm n st) as Hc.
  destruct (cycle llm n st) as [e|st1]; [eauto|].
  unfold should_continue.
  destruct (is_complete st1) eqn:Hdone.
  - eexists. split; [reflexivity|]. split; [lia | now left].
  - destruct (Z.geb_spec (iteration st1) MAX_ITERATIONS) as [Hge|Hlt].
    + eexists. split; [reflexivity|]. split; [lia | now right].
    + destruct (IH (S (S n)) st1) as (r & Hr & Hres); [lia | lia |].
      exists r. split; [exact Hr|].
      destruct r as [e|final]; [exact Hres|].
      destruct Hres as [Hbounds Hstop]. split; [lia | exact Hstop].
Qed.

(** X14. Whatever the model does, the graph started on a state with a
    non-negative [iteration] ends within three turns.  When it returns it has
    run at least one turn, also on a state handed over with [is_complete]
    already set, [iteration] is at most 3 or the initial one plus 1, and one
    of the two stop conditions holds; otherwise it ends by an exception that
    a call of the model raised. *)
Theorem invoke_ends (llm : Llm) (fuel n : nat) (st : SwarmState) :
  0 <= iteration st ->
  (3 <= fuel)%nat ->
  exists r,
    invoke llm fuel n st = Some r /\
    match r with
    | inr final =>
        iteration st + 1 <= iteration final
        <= Z.max MAX_ITERATIONS (iteration st + 1) /\
        stops final
    | inl e => exists n' node prompt, llm n' node prompt = inl e
    end.
Proof.
  intros Hit Hfuel. apply invoke_total; [lia|].
  unfold MAX_ITERATIONS. lia.
Qed.

Lemma invoke_ends_witness :
  exists r,
    invoke refuses 3 0 (initial_state "p") = Some r /\
    match r with
    | inr final =>
        iteration (initial_state "p") + 1 <= iteration final
        <= Z.max MAX_ITERATIONS (iteration (initial_state "p") + 1) /\
        stops final
    | inl e => exists n' node prompt, refuses n' node prompt = inl e
    end.
Proof.
  apply (invoke_ends refuses 3 0 (initial_state "p")); simpl; lia.
Defined.

(** A state handed over as complete still gets its turn, and the verdict of
    the critic replaces the flag. *)
Example complete_state_runs_a_turn :
  option_map (fun r => match r with
                       | inr st => Some (iteration st, is_complete st)
                       | inl _ => None
                       end)
    (invoke Scenarios.approves_second 3 0
       (mkState "p" "done" "fine" 0 true []))
  = Some (Some (2, true)).
Proof. reflexivity. Qed.

End LangGraphSwarmExtras.

(** * Properties of the command loop of swarm_agent.py *)

Module SwarmAgentMainExtras.

Import SwarmAgent SwarmAgentTheory LangGraphSwarm LangGraphRuns SwarmAgentMain.
Import LangGraphSwarmExtras.

Lemma is_space_lower_char (c : ascii) : is_space (lower_char c) = is_space c.
Proof. destruct c as [[] [] [] [] [] [] [] []]; reflexivity. Qed.

Lemma solid_lower (s : string) : solid (lower s) = solid s.
Proof.
  induction s as [|c s IH]; simpl; [reflexivity|].
  now rewrite is_space_lower_char, IH.
Qed.

Lemma rstrip_blank (ws : string) : blank ws = true -> rstrip ws = EmptyString.
Proof.
  induction ws as [|c ws IH]; simpl; [reflexivity|].
  intros H. apply andb_true_iff in H as [Hc Hws]. now rewrite (IH Hws), Hc.
Qed.

Lemma append_empty (s : string) : s ^^ EmptyString = s.
Proof. induction s as [|c s IH]; simpl; [reflexivity | now rewrite IH]. Qed.

(** A word without whitespace, surrounded by whitespace, is what [strip]
    leaves. *)
Lemma strip_word (ws1 w ws2 : string) :
  blank ws1 = true -> blank ws2 = true -> solid w = true -> w <> EmptyString ->
  strip (ws1 ^^ w ^^ ws2) = w.
Proof.
  intros H1 H2 Hw Hne. unfold strip. rewrite (lstrip_blank _ _ H1).
  destruct w as [|c w]; [contradiction|].
  pose proof Hw as Hw'. simpl in Hw'. apply andb_true_iff in Hw' as [Hc _].
  apply negb_true_iff in Hc.
  change (String c w ^^ ws2) with (String c (w ^^ ws2)).
  simpl lstrip. rewrite Hc.
  change (String c (w ^^ ws2)) with (String c w ^^ ws2).
  now rewrite (rstrip_solid _ _ Hw), (rstrip_blank _ H2), append_empty.
Qed.

Lemma quit_word_solid (w : string) :
  In (lower w) quit_words -> solid w = true /\ w <> EmptyString.
Proof.
  intros H. split.
  - rewrite <- solid_lower.
    destruct H as [<-|[<-|[<-|[]]]]; reflexivity.
  - intros ->. simpl in H. destruct H as [H|[H|[H|[]]]]; discriminate.
Qed.

Lemma main_cons (services : nat -> Oracle) (k : nat) (line : string) (rest : list string) :
  main services k (line :: rest)
  = if mem (lower (strip line)) quit_words then Some ([], Goodbye)
    else if String.eqb (strip line) EmptyString then main services k rest
    else
      match run_swarm (services k) (strip line) with
      | None => None
      | Some (Raised e _) => Some ([], Crashed e)
      | Some (Ok result _) =>
          match main services (S k) rest with
          | None => None
          | Some (runs, ending) => Some ((strip line, result) :: runs, ending)
          end
      end.
Proof. reflexivity. Qed.

(** X15. Every task the command loop hands to [run_swarm] is a line of the
    input with the surrounding whitespace removed, is not empty and is not
    one of the words [quit], [exit], [q] in any letter case; the result
    recorded with it is what [run_swarm] returned for it. *)
Theorem main_runs_clean_tasks (services : nat -> Oracle) :
  forall (lines : list string) (k : nat) runs ending,
    main services k lines = Some (runs, ending) ->
    Forall (fun r =>
              (exists line, In line lines /\ fst r = strip line) /\
              fst r <> EmptyString /\
              ~ In (lower (fst r)) quit_words /\
              exists k', returned (run_swarm (services k') (fst r)) = Some (snd r))
           runs.
Proof.
  induction lines as [|line rest IH]; intros k runs ending.
  - intros H; inversion H; subst; clear H. constructor.
  - rewrite main_cons.
    destruct (mem (lower (strip line)) quit_words) eqn:Hquit.
    + intros H; inversion H; subst; clear H. constructor.
    + destruct (String.eqb_spec (strip line) EmptyString) as [Hempty|Hne].
      * intros H. apply IH in H. eapply Forall_impl; [|exact H].
        intros r ((l & Hl & E) & H2 & H3 & H4).
        split; [exists l; split; [now right | exact E] | auto].
      * destruct (run_swarm (services k) (strip line)) as [[result s|e s]|] eqn:Hrun;
          try discriminate.
        -- destruct (main services (S k) rest) as [[runs' ending']|] eqn:Hrest;
             [|discriminate].
           intros H; inversion H; subst; clear H. constructor.
           ++ cbn [fst snd]. split; [exists line; split; [now left | reflexivity]|].
              split; [exact Hne|]. split; [now apply mem_not_In|].
              exists k. now rewrite Hrun.
           ++ apply IH in Hrest. eapply Forall_impl; [|exact Hrest].
              intros r ((l & Hl & E) & H2 & H3 & H4).
              split; [exists l; split; [now right | exact E] | auto].
        -- intros H; inversion H; subst; clear H. constructor.
Qed.

Lemma main_runs_clean_tasks_witness :
  Forall (fun r =>
            (exists line, In line ["  "; " topic "; "Quit"; "later"] /\
                          fst r = strip line) /\
            fst r <> EmptyString /\
            ~ In (lower (fst r)) quit_words /\
            exists k', returned (run_swarm ((fun _ : nat => Scenarios.search_down) k') (fst r))
                       = Some (snd r))
         [("topic", Runs.search_down_report)].
Proof.
  apply (main_runs_clean_tasks (fun _ : nat => Scenarios.search_down)
           ["  "; " topic "; "Quit"; "later"] 0 _ Goodbye).
  reflexivity.
Defined.

(** X16. On ASCII input, one of the words [quit], [exit], [q], in any
    letter case and with any ASCII whitespace around it, ends the session:
    the lines after it are not read, so they change nothing, whatever they
    hold. *)
Theorem main_stops_at_quit (services : nat -> Oracle) (w ws1 ws2 : string)
        (after : list string) :
  In (lower w) quit_words ->
  blank ws1 = true ->
  blank ws2 = true ->
  forall (before : list string) (k : nat),
    Forall (fun line => ascii_text line = true) before ->
    main services k (before ++ (ws1 ^^ w ^^ ws2) :: after)
    = main services k (before ++ [ws1 ^^ w ^^ ws2]) /\
    main services k ((ws1 ^^ w ^^ ws2) :: after) = Some ([], Goodbye).
Proof.
  intros Hw H1 H2.
  destruct (quit_word_solid w Hw) as [Hsolid Hne].
  assert (Hstop : forall rest k,
             main services k ((ws1 ^^ w ^^ ws2) :: rest) = Some ([], Goodbye)).
  { intros rest k. rewrite main_cons, (strip_word _ _ _ H1 H2 Hsolid Hne).
    apply mem_In in Hw. now rewrite Hw. }
  intros before k _. split; [|apply Hstop].
  revert k. induction before as [|line before IH]; intros k.
  - simpl app. now rewrite !Hstop.
  - simpl app. rewrite !main_cons.
    destruct (mem (lower (strip line)) quit_words); [reflexivity|].
    destruct (String.eqb (strip line) EmptyString); [apply IH|].
    destruct (run_swarm (services k) (strip line)) as [[result s|e s]|];
      try reflexivity.
    now rewrite IH.
Qed.

Lemma main_stops_at_quit_witness :
  main (fun _ : nat => Scenarios.quiet) 0
       ([" topic "] ++ ("  " ^^ "QuIt" ^^ " ") :: ["later"])
  = main (fun _ : nat => Scenarios.quiet) 0 ([" topic "] ++ ["  " ^^ "QuIt" ^^ " "]) /\
  main (fun _ : nat => Scenarios.quiet) 0 (("  " ^^ "QuIt" ^^ " ") :: ["later"])
  = Some ([], Goodbye).
Proof.
  apply (main_stops_at_quit (fun _ : nat => Scenarios.quiet) "QuIt" "  " " " ["later"]).
  - left. reflexivity.
  - reflexivity.
  - reflexivity.
  - repeat constructor.
Defined.

End SwarmAgentMainExtras.
